(** * UPSC PYQs practice tool: the data pipeline and the session handlers

    A shallow embedding of the logic of the two React pages of the
    repository:

    - [Pyqs] (src/components/pyqs.tsx and its later revision with the id
      filter and [formatText]): the completion callback of the CSV parse,
      the derivation of the subject options, [updateDisplayedQuestions]
      with [shuffleArray], and the event handlers;
    - [Quiz] (the two revisions of the quiz page): the row mapping of
      [handleFileUpload], [handleAnswerSelect] and [handleSubmit].

    Conventions.  A JavaScript string is a [string], a sequence of code
    units below U+0100.  White space and [toLowerCase] are JavaScript's on
    these strings; [toUpperCase] is JavaScript's on the strings without
    the micro sign, sharp s and y with diaeresis, whose upper-case forms
    are not such strings.  A JavaScript number that the code compares or counts with is
    an integer [Z].  [null] and [undefined] are kept apart wherever the
    code can tell them apart.  Arrays live in a store and are referred to
    by location, so that copying and in-place update are distinguishable. *)

From Stdlib Require Import ZArith Ascii String List Permutation.
From Stdlib Require Import DecimalString DecimalPos Sorted.
From stdpp Require Import base option list gmap sets strings.

Open Scope string_scope.

(** ** The fragment of JavaScript the pages rely on *)

Module JS.

(** Run-time values of a parsed CSV cell and of a [Question] field.  With
    [dynamicTyping: true] PapaParse may hand back numbers and booleans,
    and [row] is typed [any], so the declared [string | null] is only the
    usual case. *)
Inductive value : Type :=
| VUndefined
| VNull
| VBool (b : bool)
| VNum (n : Z)
| VStr (s : string).

#[export] Instance value_eq_dec : EqDecision value.
Proof. solve_decision. Defined.

(** [!!v] *)
Definition truthy (v : value) : bool :=
  match v with
  | VUndefined | VNull => false
  | VBool b => b
  | VNum n => negb (n =? 0)%Z
  | VStr s => negb (String.eqb s EmptyString)
  end.

(** [v == null] (true of [null] and [undefined] only) *)
Definition is_nullish (v : value) : bool :=
  match v with
  | VUndefined | VNull => true
  | _ => false
  end.

(** [a ?? b] *)
Definition nullish_coalesce (a b : value) : value :=
  if is_nullish a then b else a.

(** [a || b] *)
Definition or_else (a b : value) : value :=
  if truthy a then a else b.

(** [a === b]; numbers are integers here, so there is no NaN case. *)
Definition strict_eq (a b : value) : bool := bool_decide (a = b).

(** [String(v)] *)
Definition to_string (v : value) : string :=
  match v with
  | VUndefined => "undefined"
  | VNull => "null"
  | VBool true => "true"
  | VBool false => "false"
  | VNum n => NilZero.string_of_int (Z.to_int n)
  | VStr s => s
  end.

(** Truthiness of a [string | null] state cell. *)
Definition truthy_str (s : option string) : bool :=
  match s with
  | None => false
  | Some t => negb (String.eqb t EmptyString)
  end.

Definition code (c : ascii) : nat := nat_of_ascii c.

Definition between (lo hi : nat) (c : ascii) : bool :=
  ((lo <=? code c) && (code c <=? hi))%nat.

Definition is_upper : ascii -> bool := between 65 90.
Definition is_lower : ascii -> bool := between 97 122.
Definition is_digit : ascii -> bool := between 48 57.

(** The upper-case letters below U+0100: A to Z, and U+00C0 to U+00DE
    without the multiplication sign U+00D7. *)
Definition is_upper_letter (c : ascii) : bool :=
  is_upper c || between 192 214 c || between 216 222 c.

(** The lower-case letters below U+0100 whose upper-case form is again one
    code unit below U+0100: a to z, and U+00E0 to U+00FE without the
    division sign U+00F7. *)
Definition is_lower_letter (c : ascii) : bool :=
  is_lower c || between 224 246 c || between 248 254 c.

(** The three characters below U+0100 whose upper-case form is not one
    code unit below U+0100: the micro sign U+00B5, sharp s U+00DF and
    y with diaeresis U+00FF. *)
Definition upper_leaves_range (c : ascii) : bool :=
  (code c =? 181)%nat || (code c =? 223)%nat || (code c =? 255)%nat.

(** White space that [trim], [parseInt] and the class [\s] of a regular
    expression recognise, below U+0100: TAB, LF, VT, FF, CR, SP and the
    no-break space U+00A0. *)
Definition is_space (c : ascii) : bool :=
  between 9 13 c || (code c =? 32)%nat || (code c =? 160)%nat.

(** The upper-case form of a character; the characters of
    [upper_leaves_range] are left as they are. *)
Definition upper_char (c : ascii) : ascii :=
  if is_lower_letter c then ascii_of_nat (code c - 32)%nat else c.
Definition lower_char (c : ascii) : ascii :=
  if is_upper_letter c then ascii_of_nat (code c + 32)%nat else c.

Fixpoint map_chars (f : ascii -> ascii) (s : string) : string :=
  match s with
  | EmptyString => EmptyString
  | String c s' => String (f c) (map_chars f s')
  end.

Definition toUpperCase : string -> string := map_chars upper_char.
Definition toLowerCase : string -> string := map_chars lower_char.

(** [s.includes(sub)] *)
Fixpoint includes (s sub : string) : bool :=
  if String.prefix sub s then true
  else match s with
       | EmptyString => false
       | String _ s' => includes s' sub
       end.

Fixpoint skip_spaces (s : string) : string :=
  match s with
  | String c s' => if is_space c then skip_spaces s' else s
  | EmptyString => EmptyString
  end.

(** [s.trim().length === 0] *)
Definition is_blank (s : string) : bool := String.eqb (skip_spaces s) EmptyString.

Definition digit_val (c : ascii) : Z := Z.of_nat (code c - 48)%nat.

(** The digits at the front of [s], most significant first, accumulated
    on [acc]; [seen] records that at least one digit was read. *)
Fixpoint read_digits (s : string) (seen : bool) (acc : Z) : option Z :=
  match s with
  | String c s' =>
      if is_digit c then read_digits s' true (10 * acc + digit_val c)%Z
      else if seen then Some acc else None
  | EmptyString => if seen then Some acc else None
  end.

(** [parseInt(s, 10)]: leading white space is skipped, one sign is
    accepted, then the longest run of decimal digits is read and whatever
    follows it is ignored; [None] is NaN. *)
Definition parseInt (s : string) : option Z :=
  match skip_spaces s with
  | String "-" s' => Z.opp <$> read_digits s' false 0
  | String "+" s' => read_digits s' false 0
  | s' => read_digits s' false 0
  end.

Definition backslash : ascii := "092"%char.
Definition line_feed : ascii := "010"%char.

(** [text.replace(/\\n/g, '\n')]: every backslash immediately followed by
    the letter n becomes one line feed, scanning left to right. *)
Fixpoint replace_escaped_newlines (s : string) : string :=
  match s with
  | String c s' =>
      match s' with
      | String d s'' =>
          if Ascii.eqb c backslash && Ascii.eqb d "n"%char
          then String line_feed (replace_escaped_newlines s'')
          else String c (replace_escaped_newlines s')
      | EmptyString => String c EmptyString
      end
  | EmptyString => EmptyString
  end.

(** [parts.join(sep)] *)
Definition join (sep : string) (parts : list string) : string :=
  String.concat sep parts.

End JS.

(** ** Arrays in a store

    An array is a location in a store of arrays: [[...a]], [a.filter(p)]
    and [a.map(f)] allocate a new location, [a[i] = x] overwrites a cell of
    an existing one.  The elements themselves are values: no code path of
    the pages assigns to a field of a question object.  The store also
    counts the calls of [Math.random] made so far. *)

Module Store.

Definition loc := nat.

(** A number of the half-open unit interval, [numer / (numer + excess + 1)]:
    what [Math.random()] may return. *)
Record fraction : Type := { numer : nat; excess : nat }.

(** [Math.floor(f * k)] *)
Definition floor_mul (f : fraction) (k : nat) : nat :=
  (numer f * k) / (numer f + excess f + 1).

Section Arrays.
Context {T : Type}.

Record store : Type := { arrays : list (list T); draws : nat }.

Definition M (A : Type) : Type := store -> A * store.

#[export] Instance M_ret : MRet M := fun A x s => (x, s).
#[export] Instance M_bind : MBind M :=
  fun A B f m s => let '(a, s') := m s in f a s'.

(** a new array holding [l] *)
Definition alloc (l : list T) : M loc :=
  fun s => (length (arrays s),
            {| arrays := arrays s ++ [l]; draws := draws s |}).

(** the elements of the array at [r] *)
Definition contents (r : loc) : M (list T) :=
  fun s => (default [] (arrays s !! r), s).

(** [a.length] *)
Definition len (r : loc) : M nat :=
  l ← contents r; mret (length l).

(** [a[i]]; [None] is the [undefined] of a read out of range *)
Definition get (r : loc) (i : nat) : M (option T) :=
  l ← contents r; mret (l !! i).

(** [a[i] = x] for [i] below the length *)
Definition set (r : loc) (i : nat) (x : T) : M unit :=
  fun s => (tt, {| arrays := alter (fun l => <[i := x]> l) r (arrays s);
                   draws := draws s |}).

(** [[...a]] *)
Definition copy (r : loc) : M loc :=
  l ← contents r; alloc l.

(** [a.filter(p)] *)
Definition filterA (p : T -> bool) (r : loc) : M loc :=
  l ← contents r; alloc (List.filter p l).

(** [Math.random()], the next draw of the run [rnd] *)
Definition random (rnd : nat -> fraction) : M fraction :=
  fun s => (rnd (draws s), {| arrays := arrays s; draws := S (draws s) |}).

(** [[a[i], a[j]] = [a[j], a[i]]]: the right-hand side is read first,
    then [a[i]] and [a[j]] are assigned in this order.  Both indices are
    below the length wherever the pages swap. *)
Definition swap (r : loc) (i j : nat) : M unit :=
  x ← get r j;
  y ← get r i;
  match x, y with
  | Some x, Some y => _ ← set r i x; set r j y
  | _, _ => mret tt
  end.

(** The loop of [shuffleArray]; the argument is [currentIndex] on entry
    to the loop test. *)
Fixpoint shuffle_loop (rnd : nat -> fraction) (newArray : loc)
    (currentIndex : nat) : M unit :=
  match currentIndex with
  | O => mret tt
  | S currentIndex' =>
      f ← random rnd;
      let randomIndex := floor_mul f currentIndex in
      _ ← swap newArray currentIndex' randomIndex;
      shuffle_loop rnd newArray currentIndex'
  end.

(** [shuffleArray(array)] *)
Definition shuffleArray (rnd : nat -> fraction) (array : loc) : M loc :=
  currentIndex ← len array;
  newArray ← copy array;
  _ ← shuffle_loop rnd newArray currentIndex;
  mret newArray.

(** what is stored at [r]; [None] if [r] is not allocated *)
Definition at_loc (s : store) (r : loc) : option (list T) := arrays s !! r.

(** [s'] is [s] with further arrays allocated and none overwritten. *)
Definition grows (s s' : store) : Prop :=
  exists extra, arrays s' = (arrays s ++ extra)%list.

(** [op] yields an array whose elements are related by [R] to those of
    its argument, and at most allocates. *)
Definition step (op : loc -> M loc) (R : list T -> list T -> Prop)
    : Prop :=
  forall s r l, arrays s !! r = Some l ->
    exists r' s' l', op r s = (r', s') /\ grows s s' /\
      arrays s' !! r' = Some l' /\ R l l' /\ (r <= r')%nat /\
      (r' = r \/ length (arrays s) <= r')%nat.

End Arrays.

Arguments store : clear implicits.
Arguments M : clear implicits.

End Store.

(** ** Collections built with [Set] and [sort] *)

Module Collections.
Import JS.

(** [Array.from(new Set(l))]: the first occurrence of each value, in
    order of appearance. *)
Fixpoint unique_from (seen l : list value) : list value :=
  match l with
  | [] => []
  | x :: l' =>
      if bool_decide (x ∈ seen) then unique_from seen l'
      else x :: unique_from (x :: seen) l'
  end.

Definition unique : list value -> list value := unique_from [].

(** The default comparison of [sort()]: by [String(x)], code unit by code
    unit. *)
Definition sort_le (x y : value) : bool :=
  String.leb (to_string x) (to_string y).

Fixpoint sort_insert (x : value) (l : list value) : list value :=
  match l with
  | [] => [x]
  | y :: l' => if sort_le x y then x :: l else y :: sort_insert x l'
  end.

(** [l.sort()] (stable) *)
Definition sort (l : list value) : list value := foldr sort_insert [] l.

End Collections.

(** ** The practice page *)

Module Pyqs.
Import JS Store Collections.

(** [interface Question].  The later revision names the last field
    [image_url], the earlier one [imageUrl]. *)
Record Question : Type := {
  id : Z;
  paper : value;
  subject : value;
  topic : value;
  year : value;
  passage : value;
  question : value;
  option_a : value;
  option_b : value;
  option_c : value;
  option_d : value;
  correct_option : value;
  explanation : value;
  image_url : value
}.

(** [interface Filters]; [id] is the field the later revision adds, and
    the earlier revision behaves as if it were always empty. *)
Module Filters.
Record t : Type := {
  paper : string;
  subject : string;
  topic : string;
  year : string;
  id : string
}.
End Filters.

(** The [useState] cells of the component.  The two question arrays are
    locations of the store. *)
Record State : Type := {
  allQuestions : loc;
  isLoadingCsv : bool;
  csvError : option string;
  filters : Filters.t;
  availableSubjects : list value;
  searchTerm : string;
  debouncedSearchTerm : string;
  isRandom : bool;
  displayedQuestions : loc;
  currentIndex : Z;
  selectedOption : option string;
  submittedIndices : gset Z;
  jumpToInput : string
}.

(** The initial values given to [useState]: the two arrays are the first
    two locations of [initialStore]. *)
Definition initialFilters : Filters.t :=
  {| Filters.paper := EmptyString; Filters.subject := EmptyString;
     Filters.topic := EmptyString; Filters.year := EmptyString;
     Filters.id := EmptyString |}.

Definition initialState : State :=
  {| allQuestions := 0%nat; isLoadingCsv := true; csvError := None;
     filters := initialFilters; availableSubjects := [];
     searchTerm := EmptyString; debouncedSearchTerm := EmptyString;
     isRandom := false; displayedQuestions := 1%nat;
     currentIndex := 0; selectedOption := None;
     submittedIndices := ∅; jumpToInput := EmptyString |}.

Definition initialStore : store Question :=
  {| arrays := [[]; []]; draws := 0 |}.

Definition setAllQuestions (r : loc) (st : State) : State :=
  {| allQuestions := r; isLoadingCsv := isLoadingCsv st;
     csvError := csvError st; filters := filters st;
     availableSubjects := availableSubjects st;
     searchTerm := searchTerm st;
     debouncedSearchTerm := debouncedSearchTerm st;
     isRandom := isRandom st; displayedQuestions := displayedQuestions st;
     currentIndex := currentIndex st; selectedOption := selectedOption st;
     submittedIndices := submittedIndices st;
     jumpToInput := jumpToInput st |}.

Definition setIsLoadingCsv (b : bool) (st : State) : State :=
  {| allQuestions := allQuestions st; isLoadingCsv := b;
     csvError := csvError st; filters := filters st;
     availableSubjects := availableSubjects st;
     searchTerm := searchTerm st;
     debouncedSearchTerm := debouncedSearchTerm st;
     isRandom := isRandom st; displayedQuestions := displayedQuestions st;
     currentIndex := currentIndex st; selectedOption := selectedOption st;
     submittedIndices := submittedIndices st;
     jumpToInput := jumpToInput st |}.

Definition setCsvError (e : option string) (st : State) : State :=
  {| allQuestions := allQuestions st; isLoadingCsv := isLoadingCsv st;
     csvError := e; filters := filters st;
     availableSubjects := availableSubjects st;
     searchTerm := searchTerm st;
     debouncedSearchTerm := debouncedSearchTerm st;
     isRandom := isRandom st; displayedQuestions := displayedQuestions st;
     currentIndex := currentIndex st; selectedOption := selectedOption st;
     submittedIndices := submittedIndices st;
     jumpToInput := jumpToInput st |}.

Definition setFilters (f : Filters.t) (st : State) : State :=
  {| allQuestions := allQuestions st; isLoadingCsv := isLoadingCsv st;
     csvError := csvError st; filters := f;
     availableSubjects := availableSubjects st;
     searchTerm := searchTerm st;
     debouncedSearchTerm := debouncedSearchTerm st;
     isRandom := isRandom st; displayedQuestions := displayedQuestions st;
     currentIndex := currentIndex st; selectedOption := selectedOption st;
     submittedIndices := submittedIndices st;
     jumpToInput := jumpToInput st |}.

Definition setAvailableSubjects (l : list value) (st : State) : State :=
  {| allQuestions := allQuestions st; isLoadingCsv := isLoadingCsv st;
     csvError := csvError st; filters := filters st;
     availableSubjects := l;
     searchTerm := searchTerm st;
     debouncedSearchTerm := debouncedSearchTerm st;
     isRandom := isRandom st; displayedQuestions := displayedQuestions st;
     currentIndex := currentIndex st; selectedOption := selectedOption st;
     submittedIndices := submittedIndices st;
     jumpToInput := jumpToInput st |}.

Definition setDisplayedQuestions (r : loc) (st : State) : State :=
  {| allQuestions := allQuestions st; isLoadingCsv := isLoadingCsv st;
     csvError := csvError st; filters := filters st;
     availableSubjects := availableSubjects st;
     searchTerm := searchTerm st;
     debouncedSearchTerm := debouncedSearchTerm st;
     isRandom := isRandom st; displayedQuestions := r;
     currentIndex := currentIndex st; selectedOption := selectedOption st;
     submittedIndices := submittedIndices st;
     jumpToInput := jumpToInput st |}.

Definition setCurrentIndex (i : Z) (st : State) : State :=
  {| allQuestions := allQuestions st; isLoadingCsv := isLoadingCsv st;
     csvError := csvError st; filters := filters st;
     availableSubjects := availableSubjects st;
     searchTerm := searchTerm st;
     debouncedSearchTerm := debouncedSearchTerm st;
     isRandom := isRandom st; displayedQuestions := displayedQuestions st;
     currentIndex := i; selectedOption := selectedOption st;
     submittedIndices := submittedIndices st;
     jumpToInput := jumpToInput st |}.

Definition setSelectedOption (o : option string) (st : State) : State :=
  {| allQuestions := allQuestions st; isLoadingCsv := isLoadingCsv st;
     csvError := csvError st; filters := filters st;
     availableSubjects := availableSubjects st;
     searchTerm := searchTerm st;
     debouncedSearchTerm := debouncedSearchTerm st;
     isRandom := isRandom st; displayedQuestions := displayedQuestions st;
     currentIndex := currentIndex st; selectedOption := o;
     submittedIndices := submittedIndices st;
     jumpToInput := jumpToInput st |}.

Definition setSubmittedIndices (s : gset Z) (st : State) : State :=
  {| allQuestions := allQuestions st; isLoadingCsv := isLoadingCsv st;
     csvError := csvError st; filters := filters st;
     availableSubjects := availableSubjects st;
     searchTerm := searchTerm st;
     debouncedSearchTerm := debouncedSearchTerm st;
     isRandom := isRandom st; displayedQuestions := displayedQuestions st;
     currentIndex := currentIndex st; selectedOption := selectedOption st;
     submittedIndices := s;
     jumpToInput := jumpToInput st |}.

Definition setJumpToInput (s : string) (st : State) : State :=
  {| allQuestions := allQuestions st; isLoadingCsv := isLoadingCsv st;
     csvError := csvError st; filters := filters st;
     availableSubjects := availableSubjects st;
     searchTerm := searchTerm st;
     debouncedSearchTerm := debouncedSearchTerm st;
     isRandom := isRandom st; displayedQuestions := displayedQuestions st;
     currentIndex := currentIndex st; selectedOption := selectedOption st;
     submittedIndices := submittedIndices st;
     jumpToInput := s |}.

(** *** Loading: the [complete] callback of [Papa.parse] *)

(** A decoded row: canonical key to cell. *)
Abbreviation Row := (gmap string value).

Record ParseError : Type := { row : Z; message : string }.

(** [results]: the rows and the diagnostics PapaParse reports. *)
Record ParseResult : Type := {
  data : list Row;
  errors : list ParseError
}.

(** [row[key]] *)
Definition field (r : Row) (key : string) : value :=
  default VUndefined (r !! key).

(** [key in row] *)
Definition has_key (r : Row) (key : string) : bool :=
  bool_decide (is_Some (r !! key)).

Definition requiredTransformedKeys : list string :=
  ["question"; "option_a"; "option_b"; "option_c"; "option_d";
   "correct_option"].

(** The predicate of the [filter] that computes [missingKeys]. *)
Definition is_missing (firstRow : Row) (key : string) : bool :=
  negb (has_key firstRow key)
  || strict_eq (field firstRow key) VNull
  || strict_eq (field firstRow key) VUndefined
  || strict_eq (field firstRow key) (VStr EmptyString).

Definition missingKeys (firstRow : Row) : list string :=
  List.filter (is_missing firstRow) requiredTransformedKeys.

Definition missing_message (keys : list string) : string :=
  "CSV data is missing essential content after processing: "
  ++ join ", " keys ++ ". Check CSV file and header mapping.".

Definition parse_error_message (errs : list ParseError) : string :=
  "Error parsing CSV: "
  ++ join "; "
       (map (fun err => "Row " ++ to_string (VNum (row err)) ++ ": "
                        ++ message err)
            (take 3 errs))
  ++ "... Check console.".

Definition no_rows_message : string :=
  "CSV file is empty or has no data rows.".

(** The body of [results.data.map((row, index) => ...)]. *)
Definition processRow (index : nat) (r : Row) : Question :=
  {| id := Z.of_nat index + 1;
     paper := nullish_coalesce (field r "paper") VNull;
     subject := nullish_coalesce (field r "subject") VNull;
     topic := nullish_coalesce (field r "topic") VNull;
     year := if is_nullish (field r "year") then VNull
             else VStr (to_string (field r "year"));
     passage := nullish_coalesce (field r "passage") VNull;
     question := nullish_coalesce (field r "question") VNull;
     option_a := nullish_coalesce (field r "option_a") VNull;
     option_b := nullish_coalesce (field r "option_b") VNull;
     option_c := nullish_coalesce (field r "option_c") VNull;
     option_d := nullish_coalesce (field r "option_d") VNull;
     correct_option := nullish_coalesce (field r "correct_option") VNull;
     explanation := nullish_coalesce (field r "explanation") VNull;
     image_url := nullish_coalesce (field r "image_url") VNull |}.

Definition processedData (rows : list Row) : list Question :=
  imap processRow rows.

Definition reject (msg : string) (st : State) : State :=
  setIsLoadingCsv false (setCsvError (Some msg) st).

(** [complete: (results) => ...] *)
Definition complete (results : ParseResult) (st : State)
    : M Question State :=
  if bool_decide (0 < length (errors results)) then
    mret (reject (parse_error_message (errors results)) st)
  else
    match data results with
    | firstRow :: _ =>
        if bool_decide (0 < length (missingKeys firstRow)) then
          mret (reject (missing_message (missingKeys firstRow)) st)
        else
          r ← alloc (processedData (data results));
          mret (setIsLoadingCsv false (setAllQuestions r st))
    | [] => mret (reject no_rows_message st)
    end.

(** What [fetch] and [response.text()] produce. *)
Inductive FetchOutcome : Type :=
| Threw (msg : string)
| Responded (ok : bool) (status : Z) (csvText : string).

Definition load_failure (msg : string) (st : State) : M Question State :=
  r ← alloc [];
  mret (setIsLoadingCsv false
          (setAllQuestions r
             (setCsvError
                (Some ("Failed to load or process question data. " ++ msg))
                st))).

(** [fetchAndParseCsv]; [papaParse] is the decoder, applied to the text
    with the header transformation. *)
Definition fetchAndParseCsv (papaParse : string -> ParseResult)
    (outcome : FetchOutcome) (st : State) : M Question State :=
  r ← alloc [];
  let st := setAllQuestions r (setCsvError None (setIsLoadingCsv true st)) in
  match outcome with
  | Threw msg => load_failure msg st
  | Responded ok status csvText =>
      if negb ok then
        load_failure ("HTTP error! status: " ++ to_string (VNum status)
                      ++ " - Could not fetch CSV.") st
      else if String.eqb csvText EmptyString || is_blank csvText then
        load_failure "CSV file is empty" st
      else complete (papaParse csvText) st
  end.

(** *** The subject options *)

Definition paper_is (p : string) (q : Question) : bool :=
  strict_eq (paper q) (VStr p).

(** The effect that derives [availableSubjects]. *)
Definition deriveAvailableSubjects (st : State) : M Question State :=
  all ← contents (allQuestions st);
  if isLoadingCsv st || truthy_str (csvError st)
     || bool_decide (length all = 0%nat) then
    mret (setAvailableSubjects [] st)
  else
    let subjectsToShow :=
      if negb (truthy (VStr (Filters.paper (filters st)))) then
        sort (unique (List.filter truthy (map subject all)))
      else
        sort (unique (List.filter truthy
                        (map subject
                           (List.filter
                              (paper_is (Filters.paper (filters st)))
                              all))))
    in
    mret (setAvailableSubjects subjectsToShow st).

(** *** The displayed questions *)

Definition subject_is (v : string) (q : Question) : bool :=
  strict_eq (subject q) (VStr v).
Definition topic_is (v : string) (q : Question) : bool :=
  strict_eq (topic q) (VStr v).
Definition year_is (v : string) (q : Question) : bool :=
  strict_eq (year q) (VStr v).
Definition id_is (n : Z) (q : Question) : bool :=
  bool_decide (id q = n).

(** [String(v || '').toLowerCase().includes(lowerSearchTerm)] *)
Definition text_matches (lowerSearchTerm : string) (v : value) : bool :=
  includes (toLowerCase (to_string (or_else v (VStr EmptyString))))
           lowerSearchTerm.

Definition matches_search (lowerSearchTerm : string) (q : Question) : bool :=
  text_matches lowerSearchTerm (question q)
  || text_matches lowerSearchTerm (passage q)
  || text_matches lowerSearchTerm (option_a q)
  || text_matches lowerSearchTerm (option_b q)
  || text_matches lowerSearchTerm (option_c q)
  || text_matches lowerSearchTerm (option_d q)
  || text_matches lowerSearchTerm (explanation q).

(** [if (cond) filtered = filtered.filter(p)] *)
Definition filter_when (cond : bool) (p : Question -> bool)
    (filtered : loc) : M Question loc :=
  if cond then filterA p filtered else mret filtered.

Definition nonempty (s : string) : bool := truthy (VStr s).

(** The resets that end both branches of [updateDisplayedQuestions]. *)
Definition show (r : loc) (st : State) : State :=
  setJumpToInput EmptyString
    (setSubmittedIndices ∅
       (setSelectedOption None
          (setCurrentIndex 0
             (setDisplayedQuestions r st)))).

(** [updateDisplayedQuestions]; [rnd] is the run of [Math.random]. *)
Definition updateDisplayedQuestions (rnd : nat -> fraction) (st : State)
    : M Question State :=
  n ← len (allQuestions st);
  if isLoadingCsv st || truthy_str (csvError st)
     || bool_decide (n = 0%nat) then
    r ← alloc []; mret (show r st)
  else
    let f := filters st in
    filtered ← copy (allQuestions st);
    filtered ← filter_when (nonempty (Filters.paper f))
                 (paper_is (Filters.paper f)) filtered;
    filtered ← filter_when (nonempty (Filters.subject f))
                 (subject_is (Filters.subject f)) filtered;
    filtered ← filter_when (nonempty (Filters.topic f))
                 (topic_is (Filters.topic f)) filtered;
    filtered ← filter_when (nonempty (Filters.year f))
                 (year_is (Filters.year f)) filtered;
    filtered ←
      (if nonempty (Filters.id f) then
         match parseInt (Filters.id f) with
         | Some searchId => filterA (id_is searchId) filtered
         | None => mret filtered
         end
       else mret filtered);
    filtered ← filter_when (nonempty (debouncedSearchTerm st))
                 (matches_search (toLowerCase (debouncedSearchTerm st)))
                 filtered;
    filtered ← (if isRandom st then shuffleArray rnd filtered
                else mret filtered);
    mret (show filtered st).

(** *** Event handlers *)

(** [handleFilterChange]; [name] and [value] are those of the changed
    control.  A name that is no field of [Filters] leaves the five fields
    as they are. *)
Definition handleFilterChange (name value : string) (prevFilters : Filters.t)
    : Filters.t :=
  let newFilters :=
    {| Filters.paper :=
         if String.eqb name "paper" then value
         else Filters.paper prevFilters;
       Filters.subject :=
         if String.eqb name "subject" then value
         else Filters.subject prevFilters;
       Filters.topic :=
         if String.eqb name "topic" then value
         else Filters.topic prevFilters;
       Filters.year :=
         if String.eqb name "year" then value
         else Filters.year prevFilters;
       Filters.id :=
         if String.eqb name "id" then value
         else Filters.id prevFilters |} in
  if String.eqb name "paper" then
    {| Filters.paper := Filters.paper newFilters;
       Filters.subject := EmptyString;
       Filters.topic := EmptyString;
       Filters.year := Filters.year newFilters;
       Filters.id := Filters.id newFilters |}
  else if String.eqb name "subject" then
    {| Filters.paper := Filters.paper newFilters;
       Filters.subject := Filters.subject newFilters;
       Filters.topic := EmptyString;
       Filters.year := Filters.year newFilters;
       Filters.id := Filters.id newFilters |}
  else newFilters.

Definition handleOptionSelect (option : string) (st : State) : State :=
  if negb (bool_decide (currentIndex st ∈ submittedIndices st)) then
    setSelectedOption (Some option) st
  else st.

Definition handleSubmit (st : State) : State :=
  if bool_decide (selectedOption st ≠ None)
     && negb (bool_decide (currentIndex st ∈ submittedIndices st)) then
    setSubmittedIndices (submittedIndices st ∪ {[currentIndex st]}) st
  else st.

Definition handlePrevious (st : State) : State :=
  if bool_decide (currentIndex st > 0)%Z then
    setSelectedOption None (setCurrentIndex (currentIndex st - 1) st)
  else st.

(** [displayedQuestions.length] in store [s] *)
Definition displayedLength (s : store Question) (st : State) : Z :=
  Z.of_nat (fst (len (displayedQuestions st) s)).

Definition handleNext (s : store Question) (st : State) : State :=
  if bool_decide (currentIndex st < displayedLength s st - 1)%Z then
    setSelectedOption None (setCurrentIndex (currentIndex st + 1) st)
  else st.

Definition handleJumpInputChange (value : string) (st : State) : State :=
  setJumpToInput value st.

Definition invalid_jump_message (total : Z) : string :=
  "Invalid question number. Please enter a number between 1 and "
  ++ to_string (VNum total) ++ ".".

(** [handleJumpTo]; the second component is the text of the [alert], if
    one is raised.  [targetIndex] is NaN exactly when [parseInt] is. *)
Definition handleJumpTo (s : store Question) (st : State)
    : State * option string :=
  let targetIndex := (fun n => n - 1)%Z <$> parseInt (jumpToInput st) in
  match targetIndex with
  | Some targetIndex =>
      if bool_decide (targetIndex >= 0)%Z
         && bool_decide (targetIndex < displayedLength s st)%Z then
        (setSelectedOption None (setCurrentIndex targetIndex st), None)
      else
        (setJumpToInput EmptyString st,
         Some (invalid_jump_message (displayedLength s st)))
  | None =>
      (setJumpToInput EmptyString st,
       Some (invalid_jump_message (displayedLength s st)))
  end.

(** [formatText] of the later revision, applied where the page renders
    the passage, the stem, the option texts and the explanation. *)
Definition formatText (text : option string) : string :=
  match text with
  | Some t => if truthy (VStr t) then replace_escaped_newlines t
              else EmptyString
  | None => EmptyString
  end.

End Pyqs.

(** ** The quiz page

    PapaParse runs here with [header: true] only, so a cell is a string
    and a column the file lacks reads as [undefined]; the fields of a
    question are [string | null], with [None] for [null]. *)

Module Quiz.
Import JS.

Record QuizQuestion : Type := {
  id : Z;
  paper : option string;
  passage : option string;
  question : option string;
  option_a : option string;
  option_b : option string;
  option_c : option string;
  option_d : option string;
  correct_option : option string;
  explanation : option string;
  subject : option string;
  topic : option string;
  year : option string
}.

Record QuizState : Type := {
  questions : list QuizQuestion;
  currentIndex : nat;
  selectedAnswers : gmap nat string;
  submitted : bool;
  score : Z
}.

(** A row as PapaParse yields it: header to cell text. *)
Abbreviation Row := (gmap string string).

(** [cell || null], for a cell that is a string or [undefined] *)
Definition or_null (cell : option string) : option string :=
  match cell with
  | Some s => if truthy (VStr s) then Some s else None
  | None => None
  end.

(** [x?.toUpperCase()]; the argument is [None] for [null] or [undefined],
    the result is [None] for [undefined]. *)
Definition upper_opt (x : option string) : option string :=
  toUpperCase <$> x.

(** The test inside the [forEach] of [handleSubmit]. *)
Definition counts_as_correct (q : QuizQuestion) (answer : option string)
    : bool :=
  bool_decide (upper_opt (correct_option q) = upper_opt answer).

(** [isCorrect] of the results view: whether the option lettered [option]
    is marked as the right one. *)
Definition isCorrect (q : QuizQuestion) (option : string) : bool :=
  bool_decide (upper_opt (correct_option q) = Some option).

(** The [forEach] of [handleSubmit], from position [index] on. *)
Fixpoint score_loop (answers : gmap nat string) (index : nat)
    (qs : list QuizQuestion) (score : Z) : Z :=
  match qs with
  | [] => score
  | q :: qs' =>
      score_loop answers (S index) qs'
        (if counts_as_correct q (answers !! index) then score + 1
         else score)
  end.

(** [handleSubmit] (the same in both revisions) *)
Definition handleSubmit (quizState : QuizState) : QuizState :=
  let score :=
    score_loop (selectedAnswers quizState) 0 (questions quizState) 0 in
  {| questions := questions quizState;
     currentIndex := currentIndex quizState;
     selectedAnswers := selectedAnswers quizState;
     submitted := true;
     score := score |}.

Definition setSelectedAnswer (index : nat) (option : string)
    (prev : QuizState) : QuizState :=
  {| questions := questions prev;
     currentIndex := currentIndex prev;
     selectedAnswers := <[index := option]> (selectedAnswers prev);
     submitted := submitted prev;
     score := score prev |}.

Definition loaded (qs : list QuizQuestion) : QuizState :=
  {| questions := qs; currentIndex := 0; selectedAnswers := ∅;
     submitted := false; score := 0 |}.

(** The revision that shows one question at a time. *)
Module Paged.

Definition mapRow (index : nat) (r : Row) : QuizQuestion :=
  {| id := Z.of_nat index + 1;
     paper := or_null (r !! "Paper");
     passage := or_null (r !! "Passage");
     question := or_null (r !! "Question");
     option_a := or_null (r !! "Option A");
     option_b := or_null (r !! "Option B");
     option_c := or_null (r !! "Option C");
     option_d := or_null (r !! "Option D");
     correct_option := or_null (r !! "Correct Answer");
     explanation := or_null (r !! "Explanation");
     subject := or_null (r !! "Subject");
     topic := or_null (r !! "Topic");
     year := or_null (r !! "Year") |}.

(** The [complete] callback of [handleFileUpload]. *)
Definition handleFileUpload (rows : list Row) : QuizState :=
  loaded (imap mapRow rows).

Definition handleAnswerSelect (option : string) (quizState : QuizState)
    : QuizState :=
  if submitted quizState then quizState
  else setSelectedAnswer (currentIndex quizState) option quizState.

End Paged.

(** The revision that lists all questions and unescapes line breaks. *)
Module Listed.

(** [cell?.replace(/\\n/g, '\n') || null] *)
Definition unescaped (cell : option string) : option string :=
  or_null (replace_escaped_newlines <$> cell).

Definition mapRow (index : nat) (r : Row) : QuizQuestion :=
  {| id := Z.of_nat index + 1;
     paper := unescaped (r !! "Paper");
     passage := unescaped (r !! "Passage");
     question := unescaped (r !! "Question");
     option_a := unescaped (r !! "Option A");
     option_b := unescaped (r !! "Option B");
     option_c := unescaped (r !! "Option C");
     option_d := unescaped (r !! "Option D");
     correct_option := unescaped (r !! "Correct Answer");
     explanation := unescaped (r !! "Explanation");
     subject := unescaped (r !! "Subject");
     topic := unescaped (r !! "Topic");
     year := unescaped (r !! "Year") |}.

Definition handleFileUpload (rows : list Row) : QuizState :=
  loaded (imap mapRow rows).

Definition handleAnswerSelect (questionIndex : nat) (option : string)
    (quizState : QuizState) : QuizState :=
  if submitted quizState then quizState
  else setSelectedAnswer questionIndex option quizState.

End Listed.

End Quiz.

(** ** What the view is, as a function of the collection

    The list that [updateDisplayedQuestions] computes before it shuffles,
    read off the same conditions; the theorems below relate the array the
    page ends up showing to it. *)

Module View.
Import JS Pyqs.

Definition keep_when (cond : bool) (p : Question -> bool)
    (l : list Question) : list Question :=
  if cond then List.filter p l else l.

Definition keep_id (idText : string) (l : list Question) : list Question :=
  if nonempty idText then
    match parseInt idText with
    | Some searchId => List.filter (id_is searchId) l
    | None => l
    end
  else l.

Definition filteredQuestions (st : State) (all : list Question)
    : list Question :=
  if isLoadingCsv st || truthy_str (csvError st)
     || bool_decide (length all = 0%nat) then []
  else
    let f := filters st in
    keep_when (nonempty (debouncedSearchTerm st))
      (matches_search (toLowerCase (debouncedSearchTerm st)))
      (keep_id (Filters.id f)
         (keep_when (nonempty (Filters.year f)) (year_is (Filters.year f))
            (keep_when (nonempty (Filters.topic f))
               (topic_is (Filters.topic f))
               (keep_when (nonempty (Filters.subject f))
                  (subject_is (Filters.subject f))
                  (keep_when (nonempty (Filters.paper f))
                     (paper_is (Filters.paper f)) all))))).

(** A run of changes of filter controls, each a name and a value, applied
    in order. *)
Definition filterChanges (evs : list (string * string)) (f : Filters.t)
    : Filters.t :=
  foldl (fun g e => handleFilterChange (fst e) (snd e) g) f evs.

(** The filters of [st] after the paper control is set to [p]. *)
Definition selectPaper (p : string) (st : State) : State :=
  setFilters (handleFilterChange "paper" p (filters st)) st.

(** The value of the digits [ds], most significant first. *)
Definition digits_value (ds : list ascii) : Z :=
  foldl (fun acc c => (10 * acc + digit_val c)%Z) 0%Z ds.

(** The two characters backslash and n. *)
Definition escaped_newline : string :=
  String backslash (String "n"%char EmptyString).

(** The columns of the quiz file and the field each one fills. *)
Definition quiz_columns
    : list (string * (Quiz.QuizQuestion -> option string)) :=
  [ ("Paper", Quiz.paper); ("Passage", Quiz.passage);
    ("Question", Quiz.question); ("Option A", Quiz.option_a);
    ("Option B", Quiz.option_b); ("Option C", Quiz.option_c);
    ("Option D", Quiz.option_d); ("Correct Answer", Quiz.correct_option);
    ("Explanation", Quiz.explanation); ("Subject", Quiz.subject);
    ("Topic", Quiz.topic); ("Year", Quiz.year) ].

(** The positions of [qs], from [index] on, that [handleSubmit] counts. *)
Fixpoint counted (answers : gmap nat string) (index : nat)
    (qs : list Quiz.QuizQuestion) : list nat :=
  match qs with
  | [] => []
  | q :: qs' =>
      if Quiz.counts_as_correct q (answers !! index)
      then index :: counted answers (S index) qs'
      else counted answers (S index) qs'
  end.

(** [s] contains a backslash immediately followed by the letter n. *)
Fixpoint has_escaped_newline (s : string) : bool :=
  match s with
  | String c s' =>
      match s' with
      | String d _ =>
          (Ascii.eqb c backslash && Ascii.eqb d "n"%char)
          || has_escaped_newline s'
      | EmptyString => false
      end
  | EmptyString => false
  end.

End View.

(** ** Header names *)

Module Headers.
Import JS.

(** Every character of [s] satisfies [p]. *)
Fixpoint all_chars (p : ascii -> bool) (s : string) : bool :=
  match s with
  | EmptyString => true
  | String c s' => p c && all_chars p s'
  end.

(** [s] without the white space at its end. *)
Fixpoint trim_end (s : string) : string :=
  match s with
  | EmptyString => EmptyString
  | String c s' =>
      let t := trim_end s' in
      if is_space c && String.eqb t EmptyString then EmptyString
      else String c t
  end.

(** [s.trim()] *)
Definition trim (s : string) : string := trim_end (skip_spaces s).

(** [s.replace(/\s+/g, '_')]: each maximal run of white space becomes one
    underscore; [in_run] tells that the previous character was white
    space. *)
Fixpoint underscore_runs (in_run : bool) (s : string) : string :=
  match s with
  | EmptyString => EmptyString
  | String c s' =>
      if is_space c then
        if in_run then underscore_runs true s'
        else String "_"%char (underscore_runs true s')
      else String c (underscore_runs false s')
  end.

(** The cases of the [switch]; the two revisions differ in the key they
    give to the image column. *)
Definition known_headers (image_key : string) : list (string * string) :=
  [ ("Paper", "paper"); ("Subject", "subject"); ("Topic", "topic");
    ("Year", "year"); ("Passage", "passage"); ("Question", "question");
    ("Option A", "option_a"); ("Option B", "option_b");
    ("Option C", "option_c"); ("Option D", "option_d");
    ("Correct Answer", "correct_option"); ("Explanation", "explanation");
    ("Image Url", image_key) ].

Definition transformHeader_with (image_key header : string) : string :=
  let trimmedHeader := trim header in
  match List.find (fun case => String.eqb trimmedHeader (fst case))
                  (known_headers image_key) with
  | Some case => snd case
  | None => underscore_runs false (toLowerCase trimmedHeader)
  end.

(** [transformHeader] of the later revision *)
Definition transformHeader : string -> string :=
  transformHeader_with "image_url".

(** [transformHeader] of the earlier revision *)
Definition transformHeader_earlier : string -> string :=
  transformHeader_with "imageUrl".

End Headers.

(** ** The other option lists of the practice page *)

Module Options.
Import JS Store Collections Pyqs.

(** The [useState] cells for the paper, topic and year options. *)
Record FacetLists : Type := {
  availablePapers : list value;
  availableTopics : list value;
  availableYears : list value
}.

(** [parseInt(v, 10)] of a value: the text of [v] is parsed. *)
Definition parseInt_value (v : value) : option Z := parseInt (to_string v).

(** Whether the comparison [(a, b) => parseInt(b, 10) - parseInt(a, 10)]
    is at most zero, so that [a] may stay before [b]; a NaN difference
    counts as zero. *)
Definition years_in_order (a b : value) : bool :=
  match parseInt_value b, parseInt_value a with
  | Some pb, Some pa => (pb - pa <=? 0)%Z
  | _, _ => true
  end.

Fixpoint insert_by (in_order : value -> value -> bool) (x : value)
    (l : list value) : list value :=
  match l with
  | [] => [x]
  | y :: l' => if in_order x y then x :: l else y :: insert_by in_order x l'
  end.

(** [l.sort(compare)] (stable).  Where the comparison is consistent the
    result is the one every stable sort gives. *)
Definition sort_by (in_order : value -> value -> bool) (l : list value)
    : list value :=
  foldr (insert_by in_order) [] l.

Definition no_options : FacetLists :=
  {| availablePapers := []; availableTopics := []; availableYears := [] |}.

(** The effect that derives the paper and year options. *)
Definition deriveFilterOptions (st : State) (lists : FacetLists)
    : M Question (State * FacetLists) :=
  all ← contents (allQuestions st);
  if isLoadingCsv st || truthy_str (csvError st) then
    mret (setAvailableSubjects [] st, no_options)
  else if bool_decide (length all = 0%nat) then
    mret (setAvailableSubjects [] st, no_options)
  else
    let papers := sort (unique (List.filter truthy (map paper all))) in
    let years :=
      sort_by years_in_order (unique (List.filter truthy (map year all))) in
    mret (setIsLoadingCsv false st,
          {| availablePapers := papers;
             availableTopics := availableTopics lists;
             availableYears := years |}).

Definition setAvailableTopics (l : list value) (lists : FacetLists)
    : FacetLists :=
  {| availablePapers := availablePapers lists;
     availableTopics := l;
     availableYears := availableYears lists |}.

(** The effect that derives the topic options. *)
Definition deriveAvailableTopics (st : State) (lists : FacetLists)
    : M Question FacetLists :=
  all ← contents (allQuestions st);
  if isLoadingCsv st || truthy_str (csvError st)
     || bool_decide (length all = 0%nat) then
    mret (setAvailableTopics [] lists)
  else
    let paperFilteredQuestions :=
      if nonempty (Filters.paper (filters st))
      then List.filter (paper_is (Filters.paper (filters st))) all
      else all in
    let topicsToShow :=
      if negb (nonempty (Filters.subject (filters st))) then
        sort (unique (List.filter truthy (map topic paperFilteredQuestions)))
      else
        sort (unique (List.filter truthy
                        (map topic
                           (List.filter
                              (subject_is (Filters.subject (filters st)))
                              paperFilteredQuestions))))
    in
    mret (setAvailableTopics topicsToShow lists).

End Options.

(** ** What the practice page renders *)

Module Rendering.
Import JS Store Pyqs.

(** The result of an expression that may throw a [TypeError]. *)
Inductive result (A : Type) : Type :=
| Returned (a : A)
| TypeError.
Arguments Returned {A} a.
Arguments TypeError {A}.

(** [displayedQuestions.length > 0 ? displayedQuestions[currentIndex] : null];
    [None] is [null] or the [undefined] of an index out of range. *)
Definition currentQuestion (s : store Question) (st : State)
    : option Question :=
  let shown := fst (contents (displayedQuestions st) s) in
  if bool_decide (0 < length shown)%nat then
    if bool_decide (0 <= currentIndex st)%Z
    then shown !! Z.to_nat (currentIndex st)
    else None
  else None.

Definition isCurrentSubmitted (st : State) : bool :=
  bool_decide (currentIndex st ∈ submittedIndices st).

(** The [disabled] attributes of the three navigation buttons and of the
    Go button. *)
Definition previousDisabled (st : State) : bool :=
  bool_decide (currentIndex st = 0%Z).

Definition nextDisabled (s : store Question) (st : State) : bool :=
  bool_decide (currentIndex st = displayedLength s st - 1)%Z.

Definition submitDisabled (st : State) : bool :=
  bool_decide (selectedOption st = None) || isCurrentSubmitted st.

Definition goDisabled (s : store Question) (st : State) : bool :=
  bool_decide (displayedLength s st <= 1)%Z || negb (nonempty (jumpToInput st)).

(** [formatText(text)] for whatever value the field holds at run time:
    [text.replace] exists on strings only. *)
Definition formatText_value (text : value) : result string :=
  if negb (truthy text) then Returned EmptyString
  else match text with
       | VStr t => Returned (replace_escaped_newlines t)
       | _ => TypeError
       end.

(** [v?.toUpperCase()]; [Returned None] is [undefined]. *)
Definition toUpperCase_optional (v : value) : result (option string) :=
  match v with
  | VUndefined | VNull => Returned None
  | VStr t => Returned (Some (toUpperCase t))
  | _ => TypeError
  end.

(** [currentQuestion.correct_option?.toUpperCase() === optLetter] *)
Definition isCorrect (q : Question) (optLetter : string) : result bool :=
  match toUpperCase_optional (correct_option q) with
  | Returned u => Returned (bool_decide (u = Some optLetter))
  | TypeError => TypeError
  end.

Definition stem_placeholder : string := "Question text missing".

(** The stem of the later revision,
    [formatText(currentQuestion.question) ?? 'Question text missing']. *)
Definition stemText (q : Question) : result string :=
  match formatText_value (question q) with
  | Returned t =>
      Returned (to_string (nullish_coalesce (VStr t) (VStr stem_placeholder)))
  | TypeError => TypeError
  end.

(** The stem of the earlier revision,
    [currentQuestion.question ?? 'Question text missing'], rendered as
    text. *)
Definition stemText_earlier (q : Question) : string :=
  to_string (nullish_coalesce (question q) (VStr stem_placeholder)).

(** The text of an option of the later revision:
    [v != null ? formatText(String(v)) : `Option ${optLetter} missing`]. *)
Definition optionText (v : value) (optLetter : string) : string :=
  if negb (is_nullish v) then formatText (Some (to_string v))
  else "Option " ++ optLetter ++ " missing".

End Rendering.

(** ** Runs of events *)

Module Events.
Import JS Store Pyqs.

(** What the user can do on a displayed question. *)
Inductive Event : Type :=
| SelectOption (option : string)
| Submit
| Previous
| Next
| JumpInput (value : string)
| JumpTo.

Definition handle (s : store Question) (st : State) (e : Event) : State :=
  match e with
  | SelectOption option => handleOptionSelect option st
  | Submit => handleSubmit st
  | Previous => handlePrevious st
  | Next => handleNext s st
  | JumpInput value => handleJumpInputChange value st
  | JumpTo => fst (handleJumpTo s st)
  end.

Definition run (s : store Question) (evs : list Event) (st : State) : State :=
  foldl (handle s) st evs.

(** The current index and the submitted indices are positions of the
    displayed array. *)
Definition in_bounds (s : store Question) (st : State) : Prop :=
  (0 <= currentIndex st < displayedLength s st)%Z /\
  forall i, i ∈ submittedIndices st -> (0 <= i < displayedLength s st)%Z.

(** The effect of the debounce timer when it fires. *)
Definition setDebouncedSearchTerm (term : string) (st : State) : State :=
  {| allQuestions := allQuestions st; isLoadingCsv := isLoadingCsv st;
     csvError := csvError st; filters := filters st;
     availableSubjects := availableSubjects st;
     searchTerm := searchTerm st;
     debouncedSearchTerm := term;
     isRandom := isRandom st; displayedQuestions := displayedQuestions st;
     currentIndex := currentIndex st; selectedOption := selectedOption st;
     submittedIndices := submittedIndices st;
     jumpToInput := jumpToInput st |}.

(** The elements of the displayed array once [updateDisplayedQuestions]
    has run. *)
Definition displayedAfterUpdate (rnd : nat -> fraction) (st : State)
    (s : store Question) : list Question :=
  let '(st', s') := updateDisplayedQuestions rnd st s in
  default [] (at_loc s' (displayedQuestions st')).

(** Whether [q] passes every filter that is set and the search. *)
Definition passes (st : State) (q : Question) : bool :=
  let f := filters st in
  (negb (nonempty (Filters.paper f)) || paper_is (Filters.paper f) q)
  && (negb (nonempty (Filters.subject f)) || subject_is (Filters.subject f) q)
  && (negb (nonempty (Filters.topic f)) || topic_is (Filters.topic f) q)
  && (negb (nonempty (Filters.year f)) || year_is (Filters.year f) q)
  && (if nonempty (Filters.id f) then
        match parseInt (Filters.id f) with
        | Some searchId => id_is searchId q
        | None => true
        end
      else true)
  && (negb (nonempty (debouncedSearchTerm st))
      || matches_search (toLowerCase (debouncedSearchTerm st)) q).

(** The quiz page that shows one question at a time. *)
Inductive QuizEvent : Type :=
| Answer (option : string)
| SubmitQuiz.

Definition handleQuiz (quizState : Quiz.QuizState) (e : QuizEvent)
    : Quiz.QuizState :=
  match e with
  | Answer option => Quiz.Paged.handleAnswerSelect option quizState
  | SubmitQuiz => Quiz.handleSubmit quizState
  end.

Definition runQuiz (evs : list QuizEvent) (quizState : Quiz.QuizState)
    : Quiz.QuizState :=
  foldl handleQuiz quizState evs.

End Events.

(** ** Sample data for the worked instances *)

Module Sample.
Import JS Store Pyqs.

Definition row1 : gmap string value :=
  {[ "paper" := VStr "GS1"; "subject" := VStr "History";
     "topic" := VStr "Modern"; "year" := VNum 2019;
     "question" := VStr "Who?"; "option_a" := VStr "a";
     "option_b" := VStr "b"; "option_c" := VStr "c";
     "option_d" := VStr "d"; "correct_option" := VStr "B" ]}.

Definition row2 : gmap string value :=
  {[ "paper" := VStr "GS2"; "subject" := VStr "Polity";
     "year" := VNum 2020;
     "question" := VStr "Which?"; "option_a" := VStr "p";
     "option_b" := VStr "q"; "option_c" := VStr "r";
     "option_d" := VStr "s"; "correct_option" := VStr "a" ]}.

Definition row3 : gmap string value :=
  {[ "paper" := VStr "GS1"; "subject" := VStr "Geography";
     "year" := VNum 2020;
     "question" := VStr "Where?"; "option_a" := VStr "w";
     "option_b" := VStr "x"; "option_c" := VStr "y";
     "option_d" := VStr "z"; "correct_option" := VStr "D" ]}.

(** [row1] without its stem. *)
Definition row_no_stem : gmap string value := delete "question" row1.

Definition three_rows : ParseResult :=
  {| data := [row1; row2; row3]; errors := [] |}.

(** The same rows, with a diagnostic about the second one. *)
Definition three_rows_one_diagnostic : ParseResult :=
  {| data := [row1; row2; row3];
     errors := [ {| row := 1; message := "Too few fields" |} ] |}.

Definition stemless_first : ParseResult :=
  {| data := [row_no_stem; row2; row3]; errors := [] |}.

Definition csv_served : FetchOutcome := Responded true 200 "Question,...".

Definition questions3 : list Question := processedData [row1; row2; row3].

(** A store whose location 0 holds the three questions and whose
    location 1 holds the first two of them, and a state that shows the
    latter. *)
Definition store3 : store Question :=
  {| arrays := [questions3; take 2 questions3]; draws := 0 |}.

Definition ready : State :=
  setIsLoadingCsv false initialState.

Definition ready_random : State :=
  {| allQuestions := 0%nat; isLoadingCsv := false; csvError := None;
     filters := initialFilters; availableSubjects := [];
     searchTerm := EmptyString; debouncedSearchTerm := EmptyString;
     isRandom := true; displayedQuestions := 1%nat;
     currentIndex := 0; selectedOption := None;
     submittedIndices := ∅; jumpToInput := EmptyString |}.

(** A quiz row with a stem and options but no answer key. *)
Definition quiz_row_no_key : gmap string string :=
  {[ "Question" := "Who?"; "Option A" := "a"; "Option B" := "b";
     "Option C" := "c"; "Option D" := "d" ]}.

Definition quiz_row_keyed : gmap string string :=
  {[ "Question" := "Which?"; "Option A" := "p"; "Option B" := "q";
     "Option C" := "r"; "Option D" := "s"; "Correct Answer" := "b" ]}.

(** A quiz row whose subject cell holds an escaped line break. *)
Definition quiz_row_escaped_subject : gmap string string :=
  {[ "Question" := "Who?";
     "Subject" := "Ancient" +:+ View.escaped_newline +:+ "India" ]}.

(** A run of [Math.random] that always returns one half. *)
Definition halves : nat -> fraction := fun _ => {| numer := 1; excess := 0 |}.

End Sample.

(** * Properties *)

Open Scope list_scope.
Import JS Store.

(** ** Arrays: swapping, shuffling, and the steps that only allocate *)

Section StoreFacts.
Context {T : Type}.
Implicit Types (s : store T) (l : list T) (r : loc).

Lemma floor_mul_lt f k : (0 < k)%nat -> (floor_mul f k < k)%nat.
Proof.
  intros Hk. unfold floor_mul.
  apply Nat.Div0.div_lt_upper_bound. nia.
Qed.

Lemma alter_as_insert (g : list T -> list T) (L : list (list T)) r l :
  L !! r = Some l -> alter g r L = <[r := g l]> L.
Proof.
  revert r. induction L as [|a L IH]; intros [|r] H; simplify_eq/=; try done.
  f_equal. by apply IH.
Qed.

Lemma insert_twice (L : list (list T)) r l1 l2 :
  <[r := l2]> (<[r := l1]> L) = <[r := l2]> L.
Proof.
  revert r. induction L as [|a L IH]; intros [|r]; simpl; try done.
  f_equal. apply IH.
Qed.

Lemma swap_spec s r l i j :
  arrays s !! r = Some l -> (i < length l)%nat -> (j < length l)%nat ->
  exists l', l' ≡ₚ l /\ length l' = length l /\
    swap r i j s = (tt, {| arrays := <[r := l']> (arrays s); draws := draws s |}).
Proof.
  intros Hr Hi Hj.
  destruct (lookup_lt_is_Some_2 l i Hi) as [y Hy].
  destruct (lookup_lt_is_Some_2 l j Hj) as [x Hx].
  exists (<[j := y]> (<[i := x]> l)). split; [|split].
  - by apply Permutation_insert_swap.
  - by rewrite !length_insert.
  - unfold swap, get, contents, set, mbind, M_bind, mret, M_ret. simpl.
    rewrite Hr. simpl. rewrite Hx, Hy. simpl. f_equal. f_equal.
    rewrite (alter_as_insert _ _ _ _ Hr).
    rewrite (alter_as_insert _ _ r (<[i:=x]> l)).
    + by rewrite insert_twice.
    + apply list_lookup_insert_eq. by eapply lookup_lt_Some.
Qed.

Lemma shuffle_loop_spec rnd r k : forall s l,
  arrays s !! r = Some l -> (k <= length l)%nat ->
  exists l', l' ≡ₚ l /\
    shuffle_loop rnd r k s
    = (tt, {| arrays := <[r := l']> (arrays s); draws := (draws s + k)%nat |}).
Proof.
  induction k as [|k IH]; intros s l Hr Hk.
  - exists l. split; [done|]. simpl. unfold mret, M_ret.
    rewrite list_insert_id by done. rewrite Nat.add_0_r. by destruct s.
  - assert (Hlt : (floor_mul (rnd (draws s)) (S k) < length l)%nat).
    { pose proof (floor_mul_lt (rnd (draws s)) (S k)). lia. }
    set (s1 := {| arrays := arrays s; draws := S (draws s) |}).
    destruct (swap_spec s1 r l k (floor_mul (rnd (draws s)) (S k)))
      as (l1 & P1 & L1 & E1); [done | lia | done |].
    set (s2 := {| arrays := <[r := l1]> (arrays s1); draws := draws s1 |}).
    destruct (IH s2 l1) as (l2 & P2 & E2).
    { simpl. apply list_lookup_insert_eq. by eapply lookup_lt_Some. }
    { lia. }
    exists l2. split; [by rewrite P2|].
    cbn [shuffle_loop]. unfold mbind, M_bind, random at 1.
    fold s1. rewrite E1. fold s2. rewrite E2. simpl.
    rewrite insert_twice. do 3 f_equal. lia.
Qed.

Lemma shuffleArray_spec rnd s r l :
  arrays s !! r = Some l ->
  exists l', l' ≡ₚ l /\
    shuffleArray rnd r s
    = (length (arrays s),
       {| arrays := arrays s ++ [l']; draws := (draws s + length l)%nat |}).
Proof.
  intros Hr.
  set (s1 := {| arrays := arrays s ++ [l]; draws := draws s |}).
  destruct (shuffle_loop_spec rnd (length (arrays s)) (length l) s1 l)
    as (l' & P & E).
  { simpl. by rewrite lookup_app_r, Nat.sub_diag by lia. }
  { lia. }
  exists l'. split; [done|].
  unfold shuffleArray, len, copy, contents, alloc, mbind, M_bind, mret, M_ret.
  simpl. rewrite Hr. simpl. fold s1. rewrite E. simpl.
  do 2 f_equal.
  rewrite insert_app_r_alt, Nat.sub_diag by lia. done.
Qed.
End StoreFacts.


Section StoreSteps.
Context {T : Type}.
Implicit Types (s : store T) (l : list T) (r : loc).

Lemma grows_refl s : grows s s.
Proof. exists []. by rewrite app_nil_r. Qed.

Lemma grows_trans s1 s2 s3 : grows s1 s2 -> grows s2 s3 -> grows s1 s3.
Proof.
  intros [e1 H1] [e2 H2]. exists (e1 ++ e2). by rewrite H2, H1, app_assoc.
Qed.

Lemma grows_keeps s s' r l :
  grows s s' -> arrays s !! r = Some l -> arrays s' !! r = Some l.
Proof. intros [e H] Hr. rewrite H. by apply lookup_app_l_Some. Qed.

Lemma grows_length s s' : grows s s' -> (length (arrays s) <= length (arrays s'))%nat.
Proof. intros [e H]. rewrite H, length_app. lia. Qed.

Lemma step_alloc (g : list T -> list T) (R : list T -> list T -> Prop) :
  (forall l, R l (g l)) ->
  step (fun r => l ← contents r; alloc (g l)) R.
Proof.
  intros HR s r l Hr.
  exists (length (arrays s)), {| arrays := arrays s ++ [g l]; draws := draws s |}, (g l).
  unfold contents, alloc, mbind, M_bind. simpl. rewrite Hr. simpl.
  split; [done|]. split; [by eexists|].
  split; [by rewrite lookup_app_r, Nat.sub_diag by lia|].
  split; [done|]. apply lookup_lt_Some in Hr. lia.
Qed.

Lemma step_skip (R : list T -> list T -> Prop) :
  (forall l, R l l) -> step (fun r => mret r) R.
Proof.
  intros HR s r l Hr. exists r, s, l.
  repeat split; auto using grows_refl.
Qed.

Lemma step_shuffle rnd : step (shuffleArray rnd) (fun l l' => l' ≡ₚ l).
Proof.
  intros s r l Hr.
  destruct (shuffleArray_spec rnd s r l Hr) as (l' & P & E).
  eexists _, _, l'. split; [exact E|]. simpl.
  split; [by eexists|].
  split; [by rewrite lookup_app_r, Nat.sub_diag by lia|].
  split; [done|]. apply lookup_lt_Some in Hr. lia.
Qed.
End StoreSteps.

Section PyqsView.
Import Pyqs View.
Implicit Types (s : store Question) (st : State).

Lemma filter_when_step c p :
  @step Question (filter_when c p) (fun l l' => l' = keep_when c p l).
Proof.
  unfold filter_when, keep_when, filterA. destruct c.
  - by apply step_alloc.
  - by apply step_skip.
Qed.

Lemma id_step idText :
  @step Question (fun filtered : loc =>
          if nonempty idText then
            match parseInt idText with
            | Some searchId => filterA (id_is searchId) filtered
            | None => mret filtered
            end
          else mret filtered)
       (fun l l' => l' = keep_id idText l).
Proof.
  unfold keep_id, filterA. destruct (nonempty idText).
  - destruct (parseInt idText).
    + by apply step_alloc.
    + by apply step_skip.
  - by apply step_skip.
Qed.

Lemma random_step rnd (b : bool) :
  @step Question (fun filtered : loc =>
          if b then shuffleArray rnd filtered else mret filtered)
       (fun l l' => l' ≡ₚ l /\ (b = false -> l' = l)).
Proof.
  destruct b.
  - intros s r l Hr.
    destruct (step_shuffle rnd s r l Hr) as (r' & s' & l' & E & G & L & P & M).
    exists r', s', l'. repeat split; try done; tauto.
  - by apply step_skip.
Qed.

Ltac next_step lem :=
  unfold mbind at 1; unfold M_bind at 1;
  match goal with
  | H : arrays _ !! _ = Some _, G : grows _ _ |- _ =>
      let r' := fresh "r" in let s' := fresh "s" in let l' := fresh "l" in
      let E := fresh "E" in let G' := fresh "G" in let L := fresh "L" in
      let R := fresh "R" in let M := fresh "M" in let F := fresh "F" in
      destruct (lem _ _ _ H) as (r' & s' & l' & E & G' & L & R & M & F);
      cbv beta in E; rewrite E; clear E H F;
      pose proof (grows_trans _ _ _ G G'); clear G G'
  end.

Lemma updateDisplayedQuestions_spec rnd st s all :
  arrays s !! allQuestions st = Some all ->
  exists r s' l,
    updateDisplayedQuestions rnd st s = (show r st, s') /\
    grows s s' /\
    arrays s' !! r = Some l /\
    (length (arrays s) <= r)%nat /\
    l ≡ₚ filteredQuestions st all /\
    (isRandom st = false -> l = filteredQuestions st all).
Proof.
  intros Hall.
  unfold updateDisplayedQuestions, filteredQuestions.
  unfold mbind at 1. unfold M_bind at 1.
  unfold len, contents, mbind at 1, M_bind at 1. simpl.
  rewrite Hall. simpl.
  destruct (isLoadingCsv st || truthy_str (csvError st)
            || bool_decide (length all = 0%nat)).
  - exists (length (arrays s)), {| arrays := arrays s ++ [[]]; draws := draws s |}, [].
    unfold alloc, mbind, M_bind, mret, M_ret. simpl.
    repeat split; try done.
    + by eexists.
    + by rewrite lookup_app_r, Nat.sub_diag by lia.
  - unfold mbind at 1. unfold M_bind at 1.
    unfold copy, contents, alloc, mbind at 1, M_bind at 1. simpl.
    rewrite Hall. simpl.
    set (s0 := {| arrays := arrays s ++ [all]; draws := draws s |}).
    assert (H0 : arrays s0 !! length (arrays s) = Some all).
    { simpl. by rewrite lookup_app_r, Nat.sub_diag by lia. }
    assert (G0 : grows s s0) by (by eexists).
    next_step (filter_when_step (nonempty (Filters.paper (filters st)))
                 (paper_is (Filters.paper (filters st)))).
    next_step (filter_when_step (nonempty (Filters.subject (filters st)))
                 (subject_is (Filters.subject (filters st)))).
    next_step (filter_when_step (nonempty (Filters.topic (filters st)))
                 (topic_is (Filters.topic (filters st)))).
    next_step (filter_when_step (nonempty (Filters.year (filters st)))
                 (year_is (Filters.year (filters st)))).
    next_step (id_step (Filters.id (filters st))).
    next_step (filter_when_step (nonempty (debouncedSearchTerm st))
                 (matches_search (toLowerCase (debouncedSearchTerm st)))).
    next_step (random_step rnd (isRandom st)).
    unfold mret, M_ret.
    exists r5, s7, l5. subst.
    destruct R5 as [P5 Q5].
    repeat split; try done. lia.
Qed.
End PyqsView.

(** ** Reading integers *)

Section ParseInt.

Lemma read_digits_acc d : forall acc : positive,
  read_digits (NilEmpty.string_of_uint d) true (Z.pos acc)
  = Some (Z.pos (Pos.of_uint_acc d acc)).
Proof.
  induction d; intros acc; simpl; try done;
    unfold digit_val; simpl; rewrite <- IHd; f_equal; lia.
Qed.

Lemma read_digits_uint d :
  read_digits (NilEmpty.string_of_uint d) true 0
  = Some (Z.of_N (Pos.of_uint d)).
Proof.
  induction d; simpl; try done;
    unfold digit_val; simpl; apply read_digits_acc.
Qed.

Lemma read_digits_first d seen :
  d <> Decimal.Nil ->
  read_digits (NilEmpty.string_of_uint d) seen 0
  = read_digits (NilEmpty.string_of_uint d) true 0.
Proof. destruct d; simpl; done. Qed.

Lemma parseInt_uint d :
  d <> Decimal.Nil ->
  parseInt (NilEmpty.string_of_uint d) = Some (Z.of_N (Pos.of_uint d)).
Proof.
  intros Hd. rewrite <- read_digits_uint.
  destruct d; try done; reflexivity.
Qed.

(** The decimal text of an integer parses back to it. *)
Lemma parseInt_to_string (n : Z) : parseInt (to_string (VNum n)) = Some n.
Proof.
  destruct n as [|p|p]; simpl.
  - reflexivity.
  - pose proof (Unsigned.to_uint_nonnil p) as Hn.
    unfold NilZero.string_of_uint.
    transitivity (parseInt (NilEmpty.string_of_uint (Pos.to_uint p))).
    { by destruct (Pos.to_uint p). }
    rewrite parseInt_uint by done. by rewrite Unsigned.of_to.
  - pose proof (Unsigned.to_uint_nonnil p) as Hn.
    unfold NilZero.string_of_uint.
    transitivity (Z.opp <$> read_digits
                    (NilEmpty.string_of_uint (Pos.to_uint p)) false 0).
    { by destruct (Pos.to_uint p). }
    rewrite read_digits_first, read_digits_uint by done.
    by rewrite Unsigned.of_to.
Qed.

Lemma read_digits_prefix (ds : list ascii) rest : forall seen acc,
  Forall (fun c => is_digit c = true) ds ->
  (rest = EmptyString \/
   exists c rest', rest = String c rest' /\ is_digit c = false) ->
  read_digits (string_of_list_ascii ds +:+ rest) seen acc
  = if bool_decide (ds = []) then (if seen then Some acc else None)
    else Some (foldl (fun a c => (10 * a + digit_val c)%Z) acc ds).
Proof.
  intros seen acc Hds Hrest. revert seen acc.
  induction Hds as [|c ds Hc Hds IH]; intros seen acc; simpl.
  - destruct Hrest as [-> | (c & rest' & -> & Hc)]; simpl; [done|].
    by rewrite Hc.
  - rewrite Hc, IH. by destruct ds.
Qed.

Lemma parseInt_prefix (ds : list ascii) rest :
  ds <> [] ->
  Forall (fun c => is_digit c = true) ds ->
  (rest = EmptyString \/
   exists c rest', rest = String c rest' /\ is_digit c = false) ->
  parseInt (string_of_list_ascii ds +:+ rest) = Some (View.digits_value ds).
Proof.
  intros Hne Hds Hrest.
  destruct ds as [|c ds]; [done|].
  pose proof (read_digits_prefix (c :: ds) rest false 0 Hds Hrest) as H.
  rewrite bool_decide_false in H by done.
  inversion Hds as [|? ? Hc _]; subst.
  unfold View.digits_value, parseInt. rewrite <- H. clear H Hds Hne.
  change (string_of_list_ascii (c :: ds) +:+ rest)
    with (String c (string_of_list_ascii ds +:+ rest)).
  generalize (string_of_list_ascii ds +:+ rest). intros tl.
  destruct c as [[] [] [] [] [] [] [] []];
    first [discriminate Hc | reflexivity].
Qed.
End ParseInt.

(** ** The collection, its ids and the view *)

Section FrameAndIds.
Import Pyqs View.

Lemma deriveAvailableSubjects_store st s :
  snd (deriveAvailableSubjects st s) = s.
Proof.
  unfold deriveAvailableSubjects, contents, mbind, M_bind, mret, M_ret.
  simpl. by destruct (_ || _).
Qed.

Lemma filter_sublist {A} (p : A -> bool) (l : list A) :
  List.filter p l `sublist_of` l.
Proof.
  induction l as [|x l IH]; simpl; [done|].
  destruct (p x); by constructor.
Qed.

Lemma keep_when_sublist c p l : keep_when c p l `sublist_of` l.
Proof. unfold keep_when. destruct c; [apply filter_sublist | done]. Qed.

Lemma keep_id_sublist t l : keep_id t l `sublist_of` l.
Proof.
  unfold keep_id. destruct (nonempty t); [|done].
  destruct (parseInt t); [apply filter_sublist | done].
Qed.

Lemma filteredQuestions_sublist st all :
  filteredQuestions st all `sublist_of` all.
Proof.
  unfold filteredQuestions. destruct (_ || _); [apply sublist_nil_l|].
  repeat (first [ etrans; [apply keep_when_sublist|]
                | etrans; [apply keep_id_sublist|] ]).
  done.
Qed.

Lemma processedData_ids rows :
  id <$> processedData rows = seqZ 1 (Z.of_nat (length rows)).
Proof.
  apply list_eq. intros i. unfold processedData.
  rewrite list_lookup_fmap, list_lookup_imap.
  destruct (rows !! i) as [r|] eqn:E; simpl.
  - apply lookup_lt_Some in E. symmetry. rewrite lookup_seqZ. split; lia.
  - apply lookup_ge_None in E. symmetry. apply lookup_seqZ_ge. lia.
Qed.

(** Claim C9.  Recomputing the displayed questions, for any filters,
    search term and random flag and any run of the random source, leaves
    the array of all questions at its location with the same elements in
    the same order; so is every other array that existed before, the
    displayed array is a different location, and deriving the subject
    options does not write to the store at all. *)
Theorem collection_never_mutated rnd st s all :
  at_loc s (allQuestions st) = Some all ->
  let '(st', s') := updateDisplayedQuestions rnd st s in
  allQuestions st' = allQuestions st /\
  at_loc s' (allQuestions st') = Some all /\
  displayedQuestions st' <> allQuestions st' /\
  (forall r l, at_loc s r = Some l -> at_loc s' r = Some l) /\
  snd (deriveAvailableSubjects st' s') = s'.
Proof.
  intros Hall.
  destruct (updateDisplayedQuestions_spec rnd st s all Hall)
    as (r & s' & l & E & G & L & M & _).
  rewrite E. simpl.
  split; [done|]. split; [by eapply grows_keeps|].
  split.
  - apply lookup_lt_Some in Hall. unfold loc in *. lia.
  - split; [|apply deriveAvailableSubjects_store].
    intros r' l' H. by eapply grows_keeps.
Qed.

Lemma complete_outcome results st s :
  let '(st', s') := complete results st s in
  (csvError st' = Some (parse_error_message (errors results)) /\
     errors results <> [] /\ s' = s /\ allQuestions st' = allQuestions st)
  \/ (csvError st' = Some no_rows_message /\ errors results = [] /\
        data results = [] /\ s' = s /\ allQuestions st' = allQuestions st)
  \/ (exists firstRow rest, errors results = [] /\
        data results = firstRow :: rest /\ missingKeys firstRow <> [] /\
        csvError st' = Some (missing_message (missingKeys firstRow)) /\
        s' = s /\ allQuestions st' = allQuestions st)
  \/ (exists firstRow rest, errors results = [] /\
        data results = firstRow :: rest /\ missingKeys firstRow = [] /\
        csvError st' = csvError st /\
        grows s s' /\
        at_loc s' (allQuestions st') = Some (processedData (data results))).
Proof.
  unfold complete.
  destruct (errors results) as [|e es] eqn:Ee; simpl.
  - destruct (data results) as [|firstRow rest] eqn:Ed.
    + right. left. done.
    + destruct (missingKeys firstRow) as [|k ks] eqn:Em; simpl.
      * do 3 right. exists firstRow, rest.
        unfold alloc, mbind, M_bind, mret, M_ret, at_loc. simpl.
        repeat split; try done.
        -- by eexists.
        -- by rewrite lookup_app_r, Nat.sub_diag by lia.
      * right. right. left. exists firstRow, rest.
        rewrite Em. repeat split; done.
  - left. done.
Qed.

Lemma fetch_success papaParse outcome st s :
  let '(st', s') := fetchAndParseCsv papaParse outcome st s in
  csvError st' = None ->
  exists status csvText,
    outcome = Responded true status csvText /\
    at_loc s' (allQuestions st')
    = Some (processedData (data (papaParse csvText))).
Proof.
  unfold fetchAndParseCsv, load_failure.
  unfold mbind at 1. unfold M_bind at 1. unfold alloc at 1.
  destruct outcome as [msg | ok status csvText].
  - unfold mbind, M_bind, alloc, mret, M_ret. simpl. done.
  - destruct ok; simpl.
    + destruct (_ || _).
      * unfold mbind, M_bind, alloc, mret, M_ret. simpl. done.
      * match goal with |- context [complete ?r ?t ?u] =>
          pose proof (complete_outcome r t u) as H;
          destruct (complete r t u) as [st' s'] end.
        intros Hnone. exists status, csvText. split; [done|].
        destruct H as [H | [H | [H | H]]].
        -- destruct H as (H & _). congruence.
        -- destruct H as (H & _). congruence.
        -- destruct H as (f & r & _ & _ & _ & H & _). congruence.
        -- destruct H as (f & r & _ & _ & _ & _ & _ & H). done.
    + unfold mbind, M_bind, alloc, mret, M_ret. simpl. done.
Qed.

Lemma quiz_ids (f : nat -> gmap string string -> Quiz.QuizQuestion) rows :
  (forall i r, Quiz.id (f i r) = Z.of_nat i + 1)%Z ->
  Quiz.id <$> imap f rows = seqZ 1 (Z.of_nat (length rows)).
Proof.
  intros Hf. apply list_eq. intros i.
  rewrite list_lookup_fmap, list_lookup_imap.
  destruct (rows !! i) as [r|] eqn:E; simpl.
  - apply lookup_lt_Some in E. symmetry. rewrite lookup_seqZ, Hf. split; lia.
  - apply lookup_ge_None in E. symmetry. apply lookup_seqZ_ge. lia.
Qed.

(** Claim C4.  A load that ends without an error stores exactly one
    question per decoded row: the question at position k is made from the
    row at position k and from no other, and its id is k + 1, so that the
    ids are 1, 2, ..., N in row order; the two quiz uploads build and
    number their questions the same way.  The displayed questions are a
    rearrangement of a subsequence of the collection (the subsequence
    itself unless the random flag is set): every displayed question is a
    question of the collection, made from one row and carrying the number
    of that row's position whatever the filters and the shuffle, and the
    collection is as it was. *)
Theorem ids_follow_input_order papaParse outcome st s rows rnd all :
  (let '(st', s') := fetchAndParseCsv papaParse outcome st s in
   csvError st' = None ->
   exists status csvText qs,
     outcome = Responded true status csvText /\
     at_loc s' (allQuestions st') = Some qs /\
     length qs = length (data (papaParse csvText)) /\
     id <$> qs = seqZ 1 (Z.of_nat (length qs)) /\
     (forall k, qs !! k = processRow k <$> data (papaParse csvText) !! k) /\
     (forall k q, qs !! k = Some q -> id q = Z.of_nat k + 1)%Z)
  /\ (let qs := Quiz.questions (Quiz.Paged.handleFileUpload rows) in
      length qs = length rows /\
      Quiz.id <$> qs = seqZ 1 (Z.of_nat (length rows)) /\
      (forall k, qs !! k = Quiz.Paged.mapRow k <$> rows !! k) /\
      (forall k q, qs !! k = Some q -> Quiz.id q = Z.of_nat k + 1)%Z)
  /\ (let qs := Quiz.questions (Quiz.Listed.handleFileUpload rows) in
      length qs = length rows /\
      Quiz.id <$> qs = seqZ 1 (Z.of_nat (length rows)) /\
      (forall k, qs !! k = Quiz.Listed.mapRow k <$> rows !! k) /\
      (forall k q, qs !! k = Some q -> Quiz.id q = Z.of_nat k + 1)%Z)
  /\ (at_loc s (allQuestions st) = Some all ->
      let '(st', s') := updateDisplayedQuestions rnd st s in
      exists shown kept,
        at_loc s' (displayedQuestions st') = Some shown /\
        kept `sublist_of` all /\ shown ≡ₚ kept /\
        (isRandom st = false -> shown = kept) /\
        (forall q, q ∈ shown -> q ∈ all) /\
        at_loc s' (allQuestions st') = Some all /\
        (forall parsed, all = processedData parsed ->
         forall q, q ∈ shown ->
         exists k row, parsed !! k = Some row /\ q = processRow k row /\
                       id q = (Z.of_nat k + 1)%Z)).
Proof.
  split; [|split; [|split]].
  - pose proof (fetch_success papaParse outcome st s) as H.
    destruct (fetchAndParseCsv papaParse outcome st s) as [st' s'].
    intros Hnone. destruct (H Hnone) as (status & csvText & -> & Hq).
    exists status, csvText, (processedData (data (papaParse csvText))).
    split; [done|]. split; [done|].
    split; [unfold processedData; by rewrite length_imap|].
    split.
    { unfold processedData at 2. rewrite length_imap.
      apply processedData_ids. }
    split; [intros k; apply list_lookup_imap|].
    intros k q Hk. unfold processedData in Hk.
    rewrite list_lookup_imap in Hk.
    destruct (data (papaParse csvText) !! k); simplify_eq/=. done.
  - simpl. rewrite length_imap. split; [done|].
    split; [by apply quiz_ids|].
    split; [intros k; apply list_lookup_imap|].
    intros k q Hk. rewrite list_lookup_imap in Hk.
    destruct (rows !! k); simplify_eq/=. done.
  - simpl. rewrite length_imap. split; [done|].
    split; [by apply quiz_ids|].
    split; [intros k; apply list_lookup_imap|].
    intros k q Hk. rewrite list_lookup_imap in Hk.
    destruct (rows !! k); simplify_eq/=. done.
  - intros Hall.
    destruct (updateDisplayedQuestions_spec rnd st s all Hall)
      as (r & s' & l & E & G & L & M & P & Q).
    rewrite E. simpl.
    assert (Hin : forall q, q ∈ l -> q ∈ all).
    { intros q Hq. rewrite P in Hq.
      eapply elem_of_sublist; [exact Hq|]. apply filteredQuestions_sublist. }
    exists l, (filteredQuestions st all).
    split; [done|]. split; [apply filteredQuestions_sublist|].
    split; [done|]. split; [done|]. split; [exact Hin|].
    split; [by eapply grows_keeps|].
    intros parsed -> q Hq.
    apply Hin, list_elem_of_lookup in Hq. destruct Hq as [k Hk].
    unfold processedData in Hk. rewrite list_lookup_imap in Hk.
    destruct (parsed !! k) as [row|] eqn:Er; simplify_eq/=.
    by exists k, row.
Qed.
End FrameAndIds.

(** ** The validation gate of the load *)

Section Gate.
Import Pyqs View Sample.

Lemma elem_of_filter_bool {A} (p : A -> bool) (l : list A) x :
  x ∈ List.filter p l <-> x ∈ l /\ p x = true.
Proof. rewrite !list_elem_of_In. apply filter_In. Qed.

Lemma is_missing_iff (firstRow : gmap string value) key :
  is_missing firstRow key = true <->
  firstRow !! key = None \/ firstRow !! key = Some VNull \/
  firstRow !! key = Some VUndefined \/
  firstRow !! key = Some (VStr EmptyString).
Proof.
  unfold is_missing, has_key, field, strict_eq.
  destruct (firstRow !! key) as [v|]; simpl.
  - 
    rewrite !orb_true_iff, !bool_decide_eq_true.
    split.
    + intros [[->| ->]| ->]; auto.
    + intros [H|[H|[H|H]]]; simplify_eq; auto.
  - split; auto.
Qed.

Lemma fetch_reaches_complete papaParse status csvText st s :
  is_blank csvText = false ->
  exists st0 s0,
    fetchAndParseCsv papaParse (Responded true status csvText) st s
    = complete (papaParse csvText) st0 s0 /\
    at_loc s0 (allQuestions st0) = Some [] /\ csvError st0 = None.
Proof.
  intros Hb. unfold fetchAndParseCsv.
  unfold mbind at 1. unfold M_bind at 1. unfold alloc at 1. simpl.
  assert (String.eqb csvText EmptyString = false) as ->.
  { destruct csvText; [discriminate Hb | done]. }
  rewrite Hb. simpl.
  eexists _, _. split; [reflexivity|]. split; [|done].
  unfold at_loc. simpl. by rewrite lookup_app_r, Nat.sub_diag by lia.
Qed.

(** Claim C3, amended.  For a fetched, non-blank text whose decoding
    has a first row: the missing keys are exactly the essential keys that
    are absent, null, undefined or the empty string on that row.  If the
    decoder reported no diagnostic, a non-empty list of missing keys
    rejects the load with the message that names them and the collection
    is empty, and an empty list accepts the load with one question per
    row.  If the decoder reported any diagnostic the load is rejected
    with the parse-error message, whatever the first row holds. *)
Theorem essential_keys_gate papaParse status csvText st s firstRow rest :
  is_blank csvText = false ->
  data (papaParse csvText) = firstRow :: rest ->
  let '(st', s') :=
    fetchAndParseCsv papaParse (Responded true status csvText) st s in
  (forall key,
      key ∈ missingKeys firstRow <->
      key ∈ requiredTransformedKeys /\
      (firstRow !! key = None \/ firstRow !! key = Some VNull \/
       firstRow !! key = Some VUndefined \/
       firstRow !! key = Some (VStr EmptyString)))
  /\ (errors (papaParse csvText) = [] -> missingKeys firstRow <> [] ->
      csvError st' = Some (missing_message (missingKeys firstRow)) /\
      at_loc s' (allQuestions st') = Some [])
  /\ (errors (papaParse csvText) = [] -> missingKeys firstRow = [] ->
      csvError st' = None /\
      at_loc s' (allQuestions st')
      = Some (processedData (firstRow :: rest)))
  /\ (errors (papaParse csvText) <> [] ->
      csvError st'
      = Some (parse_error_message (errors (papaParse csvText))) /\
      at_loc s' (allQuestions st') = Some []).
Proof.
  intros Hb Hd.
  destruct (fetch_reaches_complete papaParse status csvText st s Hb)
    as (st0 & s0 & -> & Hempty & Hnone).
  pose proof (complete_outcome (papaParse csvText) st0 s0) as H.
  destruct (complete (papaParse csvText) st0 s0) as [st' s'].
  split.
  { intros key. unfold missingKeys.
    by rewrite elem_of_filter_bool, is_missing_iff. }
  destruct H as [H | [H | [H | H]]].
  - destruct H as (E & Herr & -> & Ea). rewrite Ea.
    repeat split; try done.
  - destruct H as (_ & _ & Hd' & _). congruence.
  - destruct H as (f & r & He & Hd' & Hm & E & -> & Ea).
    rewrite Hd in Hd'. simplify_eq. rewrite Ea.
    repeat split; try done.
  - destruct H as (f & r & He & Hd' & Hm & E & G & Ea).
    rewrite Hd in Hd'. simplify_eq.
    repeat split; try done; try congruence.
Qed.

(** Claim C3 as stated fails: the first row has all six essential keys,
    yet the load is rejected and the collection is empty, because the
    decoder reported a diagnostic about another row. *)
Lemma complete_first_row_yet_rejected :
  let '(st', s') :=
    fetchAndParseCsv (fun _ => three_rows_one_diagnostic) csv_served
      initialState initialStore in
  data three_rows_one_diagnostic = row1 :: [row2; row3] /\
  missingKeys row1 = [] /\
  csvError st'
  = Some "Error parsing CSV: Row 1: Too few fields... Check console." /\
  at_loc s' (allQuestions st') = Some [].
Proof. vm_compute. repeat split. Qed.

Lemma essential_keys_gate_witness :
  let '(st', s') :=
    fetchAndParseCsv (fun _ => stemless_first) csv_served
      initialState initialStore in
  csvError st'
  = Some (missing_message ["question"]) /\
  at_loc s' (allQuestions st') = Some [].
Proof.
  pose proof (essential_keys_gate (fun _ => stemless_first) 200
                "Question,..." initialState initialStore
                row_no_stem [row2; row3] eq_refl eq_refl) as H.
  fold csv_served in H.
  destruct (fetchAndParseCsv (fun _ => stemless_first) csv_served
              initialState initialStore) as [st' s'].
  destruct H as (_ & H & _).
  apply H; [reflexivity | by vm_compute].
Defined.
End Gate.

(** ** Filters, navigation and the jump *)

Section Handlers.
Import Pyqs View Sample.

Lemma handleFilterChange_other name value f :
  name <> "subject" -> name <> "topic" ->
  Filters.subject f = EmptyString -> Filters.topic f = EmptyString ->
  Filters.subject (handleFilterChange name value f) = EmptyString /\
  Filters.topic (handleFilterChange name value f) = EmptyString.
Proof.
  intros Hs Ht Es Et. unfold handleFilterChange.
  apply String.eqb_neq in Hs, Ht. rewrite Hs, Ht.
  destruct (String.eqb name "paper"); simpl; done.
Qed.

Lemma handleFilterChange_keeps_topic name value f :
  name <> "topic" -> Filters.topic f = EmptyString ->
  Filters.topic (handleFilterChange name value f) = EmptyString.
Proof.
  intros Ht Et. unfold handleFilterChange.
  apply String.eqb_neq in Ht. rewrite Ht.
  destruct (String.eqb name "paper"); simpl; [done|].
  destruct (String.eqb name "subject"); simpl; done.
Qed.

(** Claim C5.  Changing the paper control, to any value including the
    empty one, sets the paper and empties subject and topic; changing the
    subject control empties topic.  After a paper change, subject and
    topic stay empty through any later changes of controls other than
    subject and topic, and after a subject change topic stays empty
    through any later changes of controls other than topic. *)
Theorem paper_change_clears_dependents value f evs :
  (Filters.paper (handleFilterChange "paper" value f) = value /\
   Filters.subject (handleFilterChange "paper" value f) = EmptyString /\
   Filters.topic (handleFilterChange "paper" value f) = EmptyString)
  /\ (Filters.subject (handleFilterChange "subject" value f) = value /\
      Filters.topic (handleFilterChange "subject" value f) = EmptyString)
  /\ (Forall (fun e => fst e <> "subject" /\ fst e <> "topic") evs ->
      let f' := filterChanges evs (handleFilterChange "paper" value f) in
      Filters.subject f' = EmptyString /\ Filters.topic f' = EmptyString)
  /\ (Forall (fun e => fst e <> "topic") evs ->
      let f' := filterChanges evs (handleFilterChange "subject" value f) in
      Filters.topic f' = EmptyString).
Proof.
  split; [done|]. split; [done|]. split.
  - intros Hevs. simpl. unfold filterChanges.
    assert (H0 : Filters.subject (handleFilterChange "paper" value f)
                 = EmptyString /\
                 Filters.topic (handleFilterChange "paper" value f)
                 = EmptyString) by done.
    revert H0. generalize (handleFilterChange "paper" value f).
    induction Hevs as [|[name v] evs [Hs Ht] _ IH]; intros g [Es Et];
      simpl; [done|].
    apply IH. by apply handleFilterChange_other.
  - intros Hevs. simpl. unfold filterChanges.
    assert (H0 : Filters.topic (handleFilterChange "subject" value f)
                 = EmptyString) by done.
    revert H0. generalize (handleFilterChange "subject" value f).
    induction Hevs as [|[name v] evs Ht _ IH]; intros g Et; simpl; [done|].
    apply IH. by apply handleFilterChange_keeps_topic.
Qed.

Lemma paper_change_clears_dependents_witness :
  let f := {| Filters.paper := "GS1"; Filters.subject := "History";
              Filters.topic := "Modern"; Filters.year := "2019";
              Filters.id := EmptyString |} in
  let f' := filterChanges [("year", "2020"); ("id", "7")]
              (handleFilterChange "paper" "GS2" f) in
  Filters.subject f' = EmptyString /\ Filters.topic f' = EmptyString.
Proof.
  intros f.
  apply (paper_change_clears_dependents "GS2" f
           [("year", "2020"); ("id", "7")]).
  repeat constructor; simpl; discriminate.
Defined.

Lemma handleJumpTo_cases s st :
  let len := displayedLength s st in
  match parseInt (jumpToInput st) with
  | Some n =>
      if bool_decide (1 <= n <= len)%Z then
        handleJumpTo s st
        = (setSelectedOption None (setCurrentIndex (n - 1) st), None)
      else
        handleJumpTo s st
        = (setJumpToInput EmptyString st, Some (invalid_jump_message len))
  | None =>
      handleJumpTo s st
      = (setJumpToInput EmptyString st, Some (invalid_jump_message len))
  end.
Proof.
  unfold handleJumpTo. destruct (parseInt (jumpToInput st)) as [n|]; simpl;
    [|done].
  repeat case_bool_decide; simpl; try done; lia.
Qed.

(** Claim C6.  With the decimal text of the integer [n] in the jump
    field, the jump raises no alert exactly when [n] is between 1 and the
    number of displayed questions; it then sets the current index to
    [n - 1].  Otherwise it raises the alert and leaves the current index,
    the selected option, the submitted indices and the displayed array as
    they were. *)
Theorem jumpTo_succeeds_in_range_only s st (n : Z) :
  jumpToInput st = to_string (VNum n) ->
  let len := displayedLength s st in
  let '(st', alert) := handleJumpTo s st in
  (alert = None <-> (1 <= n <= len)%Z)
  /\ ((1 <= n <= len)%Z -> currentIndex st' = (n - 1)%Z)
  /\ (~ (1 <= n <= len)%Z ->
      alert = Some (invalid_jump_message len) /\
      currentIndex st' = currentIndex st /\
      selectedOption st' = selectedOption st /\
      submittedIndices st' = submittedIndices st /\
      displayedQuestions st' = displayedQuestions st).
Proof.
  intros Hin len.
  pose proof (handleJumpTo_cases s st) as H. simpl in H. fold len in H.
  rewrite Hin, parseInt_to_string in H.
  case_bool_decide; rewrite H; simpl.
  - split; [done|]. split; [done|]. done.
  - split; [split; [discriminate | done]|]. split; done.
Qed.

Lemma jumpTo_succeeds_in_range_only_witness :
  let st := setJumpToInput "3" ready in
  let '(st', alert) := handleJumpTo store3 st in
  displayedLength store3 st = 2%Z /\
  alert = Some (invalid_jump_message 2) /\
  currentIndex st' = currentIndex st /\
  selectedOption st' = selectedOption st /\
  submittedIndices st' = submittedIndices st /\
  displayedQuestions st' = displayedQuestions st.
Proof.
  intros st.
  pose proof (jumpTo_succeeds_in_range_only store3 st 3 eq_refl) as H.
  cbv zeta in H.
  destruct (handleJumpTo store3 st) as [st' alert].
  destruct H as (_ & _ & H).
  split; [reflexivity|]. apply H. vm_compute. intros [_ H2]. by apply H2.
Defined.

(** Claim C10.  The jump reads its field with [parseInt]: when the field
    starts with a run of digits followed by the end or by a non-digit,
    the jump goes to the position these digits denote if it is in range,
    whatever follows them, and fails otherwise.  The jump fails exactly
    when [parseInt] yields no number or one out of range, and whenever it
    fails the field is reset to the empty string and the current index is
    kept; when it succeeds the field keeps its text. *)
Theorem jump_reads_leading_integer s st :
  let len := displayedLength s st in
  let '(st', alert) := handleJumpTo s st in
  (forall (ds : list ascii) rest,
      jumpToInput st = string_of_list_ascii ds +:+ rest ->
      ds <> [] ->
      Forall (fun c => is_digit c = true) ds ->
      (rest = EmptyString \/
       exists c rest', rest = String c rest' /\ is_digit c = false) ->
      let n := digits_value ds in
      ((1 <= n <= len)%Z -> currentIndex st' = (n - 1)%Z /\ alert = None)
      /\ (~ (1 <= n <= len)%Z -> alert <> None))
  /\ (alert <> None <->
      match parseInt (jumpToInput st) with
      | Some n => ~ (1 <= n <= len)%Z
      | None => True
      end)
  /\ (alert <> None ->
      jumpToInput st' = EmptyString /\ currentIndex st' = currentIndex st)
  /\ (alert = None -> jumpToInput st' = jumpToInput st).
Proof.
  intros len.
  pose proof (handleJumpTo_cases s st) as H. simpl in H. fold len in H.
  assert (Hpre : forall (ds : list ascii) rest,
             jumpToInput st = string_of_list_ascii ds +:+ rest ->
             ds <> [] ->
             Forall (fun c => is_digit c = true) ds ->
             (rest = EmptyString \/
              exists c rest', rest = String c rest' /\ is_digit c = false) ->
             parseInt (jumpToInput st) = Some (digits_value ds)).
  { intros ds rest -> Hne Hds Hrest. by apply parseInt_prefix. }
  destruct (parseInt (jumpToInput st)) as [n|];
    [case_bool_decide|]; rewrite H; simpl.
  - split; [|split; [|split]]; try done.
    intros ds rest Hin Hne Hds Hrest.
    specialize (Hpre ds rest Hin Hne Hds Hrest). simplify_eq. done.
  - split; [|split; [|split]]; try done.
    intros ds rest Hin Hne Hds Hrest.
    specialize (Hpre ds rest Hin Hne Hds Hrest). simplify_eq. done.
  - split; [|split; [|split]]; try done.
    intros ds rest Hin Hne Hds Hrest.
    specialize (Hpre ds rest Hin Hne Hds Hrest). done.
Qed.

Lemma failed_jump_clears_input s st :
  snd (handleJumpTo s st) <> None ->
  jumpToInput (fst (handleJumpTo s st)) = EmptyString.
Proof.
  pose proof (handleJumpTo_cases s st) as H. simpl in H.
  destruct (parseInt (jumpToInput st)) as [n|].
  - case_bool_decide; rewrite H; simpl; done.
  - rewrite H. done.
Qed.

Lemma unreadable_jump_fails s st :
  parseInt (jumpToInput st) = None ->
  handleJumpTo s st
  = (setJumpToInput EmptyString st,
     Some (invalid_jump_message (displayedLength s st))).
Proof.
  intros Hn. pose proof (handleJumpTo_cases s st) as H. simpl in H.
  by rewrite Hn in H.
Qed.

Lemma jump_reads_leading_integer_witness :
  let st := setJumpToInput "2x" ready in
  let '(st', alert) := handleJumpTo store3 st in
  currentIndex st' = 1%Z /\ alert = None.
Proof.
  intros st.
  pose proof (jump_reads_leading_integer store3 st) as H.
  cbv zeta in H.
  destruct (handleJumpTo store3 st) as [st' alert].
  destruct H as (H & _).
  destruct (H ["2"%char] "x") as (H1 & _).
  - reflexivity.
  - discriminate.
  - repeat constructor.
  - right. by exists "x"%char, EmptyString.
  - apply H1. vm_compute. split; discriminate.
Defined.

(** Claim C2, amended.  In the practice page moving with next or
    previous never changes the submitted indices, and submitting keeps
    the selected option; but the page stores one selected option only,
    and every move that changes the current index resets it to null.
    In the quiz page the stored answers are untouched by submitting, an
    answer stored at a position survives the selection of an answer at
    any other position, no selection removes an entry, and after
    submitting selections change nothing. *)
Theorem navigation_resets_selection_only s st qz p a i o :
  (submittedIndices (handleNext s st) = submittedIndices st /\
   submittedIndices (handlePrevious st) = submittedIndices st)
  /\ selectedOption (handleSubmit st) = selectedOption st
  /\ (currentIndex (handleNext s st) <> currentIndex st ->
      currentIndex (handleNext s st) = (currentIndex st + 1)%Z /\
      selectedOption (handleNext s st) = None)
  /\ (currentIndex (handlePrevious st) <> currentIndex st ->
      currentIndex (handlePrevious st) = (currentIndex st - 1)%Z /\
      selectedOption (handlePrevious st) = None)
  /\ Quiz.selectedAnswers (Quiz.handleSubmit qz) = Quiz.selectedAnswers qz
  /\ (Quiz.selectedAnswers qz !! p = Some a ->
      (p <> i ->
       Quiz.selectedAnswers (Quiz.Listed.handleAnswerSelect i o qz) !! p
       = Some a)
      /\ (p <> Quiz.currentIndex qz ->
          Quiz.selectedAnswers (Quiz.Paged.handleAnswerSelect o qz) !! p
          = Some a)
      /\ is_Some
           (Quiz.selectedAnswers (Quiz.Listed.handleAnswerSelect i o qz)
            !! p)
      /\ is_Some
           (Quiz.selectedAnswers (Quiz.Paged.handleAnswerSelect o qz) !! p)
      /\ Quiz.selectedAnswers
           (Quiz.Listed.handleAnswerSelect i o (Quiz.handleSubmit qz)) !! p
         = Some a
      /\ Quiz.selectedAnswers
           (Quiz.Paged.handleAnswerSelect o (Quiz.handleSubmit qz)) !! p
         = Some a).
Proof.
  split.
  { unfold handleNext, handlePrevious.
    split; case_bool_decide; done. }
  split.
  { unfold handleSubmit. destruct (_ && _); done. }
  split.
  { unfold handleNext. case_bool_decide; simpl; done. }
  split.
  { unfold handlePrevious. case_bool_decide; simpl; done. }
  split; [done|].
  intros Hp.
  unfold Quiz.Listed.handleAnswerSelect, Quiz.Paged.handleAnswerSelect.
  simpl.
  destruct (Quiz.submitted qz); simpl;
    repeat split; try done;
    try (intros Hne; by rewrite lookup_insert_ne);
    try (destruct (decide (i = p)) as [->|];
         [rewrite lookup_insert_eq | rewrite lookup_insert_ne]; eauto);
    try (destruct (decide (Quiz.currentIndex qz = p)) as [<-|];
         [rewrite lookup_insert_eq | rewrite lookup_insert_ne]; eauto).
Qed.

(** Claim C2 as stated fails in the practice page: option A is selected
    and submitted at position 0, the user moves to position 1 and back,
    and position 0 is still submitted but its answer is gone. *)
Lemma submitted_answer_lost_on_return :
  let st0 := handleOptionSelect "A" ready in
  let st1 := handleSubmit st0 in
  let st2 := handleNext store3 st1 in
  let st3 := handlePrevious st2 in
  selectedOption st1 = Some "A" /\ currentIndex st1 = 0%Z /\
  currentIndex st2 = 1%Z /\ currentIndex st3 = 0%Z /\
  submittedIndices st3 = {[ 0%Z ]} /\
  selectedOption st3 = None.
Proof. vm_compute. repeat split. Qed.

Lemma navigation_resets_selection_only_witness :
  let st1 := handleSubmit (handleOptionSelect "A" ready) in
  currentIndex (handleNext store3 st1) = 1%Z /\
  selectedOption (handleNext store3 st1) = None.
Proof.
  intros st1.
  destruct (navigation_resets_selection_only store3 st1
              (Quiz.loaded []) 0%nat "A" 0%nat "A") as (_ & _ & H & _).
  apply H. vm_compute. discriminate.
Defined.
End Handlers.

(** ** The subject options *)

Section Facets.
Import Pyqs View Sample Collections.

Lemma elem_of_unique_from l : forall seen x,
  x ∈ unique_from seen l <-> x ∈ l /\ x ∉ seen.
Proof.
  induction l as [|y l IH]; intros seen x; simpl.
  - rewrite elem_of_nil. tauto.
  - case_bool_decide as Hy.
    + rewrite IH, elem_of_cons.
      split; [intros [? ?]; auto | intros [[->|?] ?]; [done | auto]].
    + rewrite !elem_of_cons, IH, not_elem_of_cons.
      split.
      * intros [->|(? & ? & ?)]; auto.
      * intros [[->|?] ?]; [by left|].
        destruct (decide (x = y)) as [->|]; [by left | by right].
Qed.

Lemma NoDup_unique_from l : forall seen, NoDup (unique_from seen l).
Proof.
  induction l as [|y l IH]; intros seen; simpl.
  - constructor.
  - case_bool_decide; [apply IH|].
    constructor; [|apply IH].
    rewrite elem_of_unique_from, not_elem_of_cons. by intros (_ & Hyy & _).
Qed.

Lemma sort_insert_perm x l : sort_insert x l ≡ₚ x :: l.
Proof.
  induction l as [|y l IH]; simpl; [done|].
  destruct (sort_le x y); [done|].
  rewrite IH. apply Permutation_swap.
Qed.

Lemma sort_perm l : sort l ≡ₚ l.
Proof.
  induction l as [|x l IH]; simpl; [done|].
  by rewrite sort_insert_perm, IH.
Qed.

Lemma elem_of_options (qs : list Question) v :
  v ∈ sort (unique (List.filter truthy (map subject qs))) <->
  truthy v = true /\ exists q, q ∈ qs /\ subject q = v.
Proof.
  rewrite sort_perm. unfold unique.
  rewrite elem_of_unique_from, elem_of_filter_bool.
  change (map subject qs) with (subject <$> qs).
  rewrite list_elem_of_fmap, elem_of_nil.
  split.
  - intros [[(q & -> & Hq) Hv] _]. split; [done|]. by exists q.
  - intros (Hv & q & Hq & <-). split; [|tauto]. split; [|done].
    by exists q.
Qed.

Lemma NoDup_options (qs : list Question) :
  NoDup (sort (unique (List.filter truthy (map subject qs)))).
Proof. rewrite sort_perm. apply NoDup_unique_from. Qed.

Lemma derive_subjects st s all p :
  at_loc s (allQuestions st) = Some all ->
  availableSubjects (fst (deriveAvailableSubjects (selectPaper p st) s))
  = if isLoadingCsv st || truthy_str (csvError st)
       || bool_decide (length all = 0%nat) then []
    else sort (unique (List.filter truthy
                         (map subject
                            (if nonempty p then List.filter (paper_is p) all
                             else all)))).
Proof.
  intros Hall.
  unfold deriveAvailableSubjects, contents, mbind, M_bind, mret, M_ret.
  unfold at_loc in Hall. simpl. rewrite Hall. simpl.
  destruct (_ || _); simpl; [done|].
  unfold nonempty, truthy. by destruct (String.eqb p EmptyString).
Qed.

(** Claim C7.  The subject options derived with paper [p] selected are
    among those derived with no paper selected, and neither list repeats
    a value.  Once the data is loaded without error, the options with [p]
    selected are exactly the truthy (for a string: non-empty) subject
    values of the questions whose paper is [p], or of all questions if
    [p] is empty, and the options with no paper selected are exactly the
    truthy subject values of all questions. *)
Theorem subject_options_narrow_with_paper st s all p :
  at_loc s (allQuestions st) = Some all ->
  let with_paper :=
    availableSubjects (fst (deriveAvailableSubjects (selectPaper p st) s)) in
  let without :=
    availableSubjects
      (fst (deriveAvailableSubjects (selectPaper EmptyString st) s)) in
  (forall v, v ∈ with_paper -> v ∈ without)
  /\ NoDup with_paper /\ NoDup without
  /\ (isLoadingCsv st = false -> truthy_str (csvError st) = false ->
      (forall v, v ∈ with_paper <->
                 truthy v = true /\
                 exists q, q ∈ all /\ subject q = v /\
                           (p = EmptyString \/ paper q = VStr p))
      /\ (forall v, v ∈ without <->
                    truthy v = true /\ exists q, q ∈ all /\ subject q = v)).
Proof.
  intros Hall with_paper without. subst with_paper without.
  rewrite !(derive_subjects _ _ all) by done.
  assert (Hmem : forall v,
    v ∈ sort (unique (List.filter truthy
                (map subject (if nonempty p
                              then List.filter (paper_is p) all
                              else all)))) <->
    truthy v = true /\
    exists q, q ∈ all /\ subject q = v /\
              (p = EmptyString \/ paper q = VStr p)).
  { intros v. rewrite elem_of_options. unfold nonempty. simpl.
    destruct (String.eqb_spec p EmptyString) as [->|Hp]; simpl.
    - split.
      + intros (Hv & q & Hq & Hs). split; [done|]. exists q. auto.
      + intros (Hv & q & Hq & Hs & _). split; [done|]. by exists q.
    - split.
      + intros (Hv & q & Hq & Hs).
        apply elem_of_filter_bool in Hq as [Hq Hpq].
        apply bool_decide_eq_true in Hpq.
        split; [done|]. exists q. auto.
      + intros (Hv & q & Hq & Hs & [?|Hpq]); [done|].
        split; [done|]. exists q. split; [|done].
        apply elem_of_filter_bool. split; [done|].
        by apply bool_decide_eq_true. }
  change (nonempty EmptyString) with false. cbv iota.
  destruct (isLoadingCsv st || truthy_str (csvError st)
            || bool_decide (length all = 0%nat)) eqn:Hg.
  - split; [done|]. split; [constructor|]. split; [constructor|].
    intros Hl Hc. rewrite Hl, Hc in Hg. simpl in Hg.
    apply bool_decide_eq_true in Hg. apply nil_length_inv in Hg as ->.
    split; intros v; split; try (intros H; by apply not_elem_of_nil in H);
      intros (_ & q & Hq & _); by apply not_elem_of_nil in Hq.
  - split.
    { intros v. rewrite Hmem, elem_of_options.
      intros (Hv & q & Hq & Hs & _). split; [done|]. by exists q. }
    split; [apply NoDup_options|]. split; [apply NoDup_options|].
    intros _ _. split; [exact Hmem|]. intros v. apply elem_of_options.
Qed.

Lemma subject_options_narrow_with_paper_witness :
  let with_paper :=
    availableSubjects
      (fst (deriveAvailableSubjects (selectPaper "GS1" ready) store3)) in
  let without :=
    availableSubjects
      (fst (deriveAvailableSubjects (selectPaper EmptyString ready) store3))
  in
  with_paper = [VStr "Geography"; VStr "History"] /\
  without = [VStr "Geography"; VStr "History"; VStr "Polity"] /\
  (forall v, v ∈ with_paper -> v ∈ without).
Proof.
  intros with_paper without.
  split; [reflexivity|]. split; [reflexivity|].
  apply (subject_options_narrow_with_paper ready store3 questions3 "GS1").
  reflexivity.
Defined.
End Facets.

(** ** Escaped line breaks *)

Section Escapes.
Import View Sample.

Lemma string_pair_ind (P : string -> Prop) :
  P EmptyString ->
  (forall c, P (String c EmptyString)) ->
  (forall c d s, P s -> P (String d s) -> P (String c (String d s))) ->
  forall s, P s.
Proof.
  intros H0 H1 H2 s.
  assert (H : P s /\ forall c, P (String c s)).
  { induction s as [|d s [IH1 IH2]]; [by split|].
    split; [apply IH2|]. intros c. by apply H2. }
  apply H.
Qed.

Lemma replace_cons2 c d s :
  replace_escaped_newlines (String c (String d s))
  = if Ascii.eqb c backslash && Ascii.eqb d "n"%char
    then String line_feed (replace_escaped_newlines s)
    else String c (replace_escaped_newlines (String d s)).
Proof. reflexivity. Qed.

Lemma replace_head d s :
  exists t, replace_escaped_newlines (String d s)
            = String (match s with
                      | String e _ =>
                          if Ascii.eqb d backslash && Ascii.eqb e "n"%char
                          then line_feed else d
                      | EmptyString => d
                      end) t.
Proof.
  destruct s as [|e s]; [by eexists|].
  rewrite replace_cons2. destruct (_ && _); by eexists.
Qed.

Lemma replace_leaves_no_escape s :
  has_escaped_newline (replace_escaped_newlines s) = false.
Proof.
  induction s as [| c | c d s IH1 IH2] using string_pair_ind; try done.
  rewrite replace_cons2.
  destruct (Ascii.eqb c backslash && Ascii.eqb d "n"%char) eqn:E.
  - destruct (replace_escaped_newlines s) as [|e t] eqn:Er; [done|].
    cbn [has_escaped_newline] in *. rewrite IH1.
    by destruct t.
  - destruct (replace_head d s) as [t Ht]. rewrite Ht in *.
    cbn [has_escaped_newline]. cbn [has_escaped_newline] in IH2.
    destruct s as [|e s'].
    + rewrite E. simpl. exact IH2.
    + destruct (Ascii.eqb d backslash && Ascii.eqb e "n"%char) eqn:E2.
      * assert (Ascii.eqb c backslash && Ascii.eqb line_feed "n"%char
                = false) as ->.
        { by rewrite andb_false_r. }
        simpl. exact IH2.
      * rewrite E. simpl. exact IH2.
Qed.

Lemma replace_without_escape s :
  has_escaped_newline s = false -> replace_escaped_newlines s = s.
Proof.
  induction s as [| c | c d s IH1 IH2] using string_pair_ind; try done.
  intros H. cbn [has_escaped_newline] in H.
  apply orb_false_iff in H as [E H].
  rewrite replace_cons2, E. f_equal. by apply IH2.
Qed.

Lemma replace_at_escape a b :
  replace_escaped_newlines (a +:+ escaped_newline +:+ b)
  = replace_escaped_newlines a +:+
    String line_feed (replace_escaped_newlines b).
Proof.
  induction a as [| c | c d s IH1 IH2] using string_pair_ind.
  - reflexivity.
  - change (String c EmptyString +:+ escaped_newline +:+ b)
      with (String c (String backslash (String "n"%char b))).
    rewrite replace_cons2.
    assert (Ascii.eqb c backslash && Ascii.eqb backslash "n"%char = false)
      as -> by (by rewrite andb_false_r).
    reflexivity.
  - change (String c (String d s) +:+ escaped_newline +:+ b)
      with (String c (String d (s +:+ escaped_newline +:+ b))).
    rewrite !replace_cons2.
    destruct (Ascii.eqb c backslash && Ascii.eqb d "n"%char).
    + simpl. by rewrite IH1.
    + change (String d (s +:+ escaped_newline +:+ b))
        with (String d s +:+ escaped_newline +:+ b).
      rewrite IH2. reflexivity.
Qed.

Lemma or_null_Some cell t :
  Quiz.or_null cell = Some t -> cell = Some t /\ t <> EmptyString.
Proof.
  destruct cell as [u|]; simpl; [|done].
  destruct (String.eqb_spec u EmptyString); simpl; [done|].
  intros [= ->]. done.
Qed.

(** Claim C8, amended.  The upload of the listing quiz page converts
    every backslash-n sequence into a line feed in every column of the
    row, the classification columns and the answer key as much as the
    free-text ones: each stored field is that transform of its own cell,
    or null if the result is empty, and no stored field retains such a
    sequence.  The transform distributes over an occurrence of the
    sequence and is the identity on a text without one.  The upload of
    the paging quiz page stores each cell unconverted, or null if the
    cell is empty.  [formatText] of the later revision of the practice
    page is the same transform of a text, and gives the empty text for
    null. *)
Theorem listed_upload_unescapes_every_field index
    (r : gmap string string) header proj :
  (header, proj) ∈ quiz_columns ->
  proj (Quiz.Listed.mapRow index r)
  = Quiz.or_null (replace_escaped_newlines <$> r !! header)
  /\ (forall t, proj (Quiz.Listed.mapRow index r) = Some t ->
      exists cell, r !! header = Some cell /\
                   t = replace_escaped_newlines cell /\
                   t <> EmptyString /\
                   has_escaped_newline t = false)
  /\ (forall a b,
      replace_escaped_newlines (a +:+ escaped_newline +:+ b)
      = replace_escaped_newlines a +:+
        String line_feed (replace_escaped_newlines b))
  /\ (forall t, has_escaped_newline t = false ->
                replace_escaped_newlines t = t)
  /\ proj (Quiz.Paged.mapRow index r) = Quiz.or_null (r !! header)
  /\ (forall t, Pyqs.formatText (Some t) = replace_escaped_newlines t)
  /\ Pyqs.formatText None = EmptyString.
Proof.
  intros Hcol.
  assert (H1 : proj (Quiz.Listed.mapRow index r)
               = Quiz.or_null (replace_escaped_newlines <$> r !! header)
               /\ proj (Quiz.Paged.mapRow index r)
                  = Quiz.or_null (r !! header)).
  { unfold quiz_columns in Hcol.
    repeat (apply elem_of_cons in Hcol as [Hcol|Hcol];
            [injection Hcol as -> ->; by split|]).
    by apply elem_of_nil in Hcol. }
  destruct H1 as [H1 H2].
  split; [exact H1|]. split.
  { intros t Ht. rewrite H1 in Ht. apply or_null_Some in Ht as [Ht Hne].
    destruct (r !! header) as [cell|]; [|done].
    injection Ht as <-. exists cell.
    repeat split; try done. apply replace_leaves_no_escape. }
  split; [apply replace_at_escape|].
  split; [apply replace_without_escape|].
  split; [exact H2|].
  split; [|reflexivity].
  intros t. unfold Pyqs.formatText. simpl.
  by destruct (String.eqb_spec t EmptyString) as [->|].
Qed.

(** Claim C8 as stated fails: the subject, which is no free-text field,
    has its escaped line break converted as well. *)
Lemma subject_cell_unescaped_too :
  quiz_row_escaped_subject !! "Subject"
  = Some ("Ancient" +:+ escaped_newline +:+ "India") /\
  Quiz.subject (Quiz.Listed.mapRow 0 quiz_row_escaped_subject)
  = Some ("Ancient" +:+ String line_feed "India") /\
  Quiz.subject (Quiz.Listed.mapRow 0 quiz_row_escaped_subject)
  <> quiz_row_escaped_subject !! "Subject".
Proof. vm_compute. repeat split. discriminate. Qed.

Lemma listed_upload_unescapes_every_field_witness :
  Quiz.subject (Quiz.Listed.mapRow 0 quiz_row_escaped_subject)
  = Quiz.or_null (replace_escaped_newlines
                    <$> quiz_row_escaped_subject !! "Subject").
Proof.
  apply (listed_upload_unescapes_every_field 0 quiz_row_escaped_subject
           "Subject" Quiz.subject).
  unfold quiz_columns. do 9 apply list_elem_of_further.
  apply list_elem_of_here.
Defined.
End Escapes.

(** ** The score of the quiz *)

Section Scoring.
Import View Sample Quiz.

Lemma score_loop_counted answers qs : forall index acc,
  score_loop answers index qs acc
  = (acc + Z.of_nat (length (counted answers index qs)))%Z.
Proof.
  induction qs as [|q qs IH]; intros index acc; simpl; [lia|].
  rewrite IH. destruct (counts_as_correct q (answers !! index)); simpl; lia.
Qed.

Lemma elem_of_counted answers qs : forall index i,
  i ∈ counted answers index qs <->
  exists q, qs !! (i - index)%nat = Some q /\ (index <= i)%nat /\
            counts_as_correct q (answers !! i) = true.
Proof.
  induction qs as [|q qs IH]; intros index i; simpl.
  - rewrite elem_of_nil. split; [done|]. by intros (q & ? & _).
  - assert (Hstep : i ∈ counted answers (S index) qs <->
              exists q', (q :: qs) !! (i - index)%nat = Some q' /\
                         (S index <= i)%nat /\
                         counts_as_correct q' (answers !! i) = true).
    { rewrite IH. split.
      - intros (q' & Hq & Hle & Hc). exists q'.
        replace (i - index)%nat with (S (i - S index)) by lia. auto.
      - intros (q' & Hq & Hle & Hc). exists q'.
        replace (i - index)%nat with (S (i - S index)) in Hq by lia. auto. }
    destruct (counts_as_correct q (answers !! index)) eqn:E.
    + rewrite elem_of_cons, Hstep. split.
      * intros [-> | (q' & Hq & Hle & Hc)].
        -- exists q. rewrite Nat.sub_diag. auto.
        -- exists q'. split; [done|]. split; [lia|done].
      * intros (q' & Hq & Hle & Hc).
        destruct (decide (i = index)) as [->|]; [by left|].
        right. exists q'. split; [done|]. split; [lia|done].
    + rewrite Hstep. split.
      * intros (q' & Hq & Hle & Hc). exists q'.
        split; [done|]. split; [lia|done].
      * intros (q' & Hq & Hle & Hc).
        destruct (decide (i = index)) as [->|].
        -- rewrite Nat.sub_diag in Hq. simpl in Hq. congruence.
        -- exists q'. split; [done|]. split; [lia|done].
Qed.

Lemma counts_as_correct_iff q answer :
  counts_as_correct q answer = true <->
  (correct_option q = None /\ answer = None) \/
  (exists c a, correct_option q = Some c /\ answer = Some a /\
               toUpperCase c = toUpperCase a).
Proof.
  unfold counts_as_correct, upper_opt. rewrite bool_decide_eq_true.
  destruct (correct_option q) as [c|], answer as [a|]; simpl.
  - split.
    + intros [= H]. right. by exists c, a.
    + intros [[? _] | (c' & a' & [= ->] & [= ->] & H)]; [done|].
      by rewrite H.
  - split; [done|]. intros [[? _] | (c' & a' & _ & ? & _)]; done.
  - split; [done|]. intros [[_ ?] | (c' & a' & ? & _)]; done.
  - split; [by left | done].
Qed.

(** Extra X25.  What [handleSubmit] computes: the number of positions
    where the answer key and the stored answer agree after upper-casing,
    two absent values agreeing with each other. *)
Lemma handleSubmit_score quizState :
  score (handleSubmit quizState)
  = Z.of_nat (length (counted (selectedAnswers quizState) 0
                        (questions quizState)))
  /\ forall i,
      i ∈ counted (selectedAnswers quizState) 0 (questions quizState) <->
      exists q, questions quizState !! i = Some q /\
        ((correct_option q = None /\ selectedAnswers quizState !! i = None)
         \/ exists c a, correct_option q = Some c /\
                        selectedAnswers quizState !! i = Some a /\
                        toUpperCase c = toUpperCase a).
Proof.
  split.
  - simpl. by rewrite score_loop_counted.
  - intros i. rewrite elem_of_counted. rewrite Nat.sub_0_r.
    split.
    + intros (q & Hq & _ & Hc). exists q. split; [done|].
      by apply counts_as_correct_iff.
    + intros (q & Hq & Hc). exists q. split; [done|]. split; [lia|].
      by apply counts_as_correct_iff.
Qed.

(** Claim C1, at the input where the code departs from it.  A file of
    two rows, the second without an answer key, is uploaded and submitted
    with no answer selected: the score is 1, the keyless and unanswered
    second question being counted, although the results view marks none
    of its options as correct.  With B selected for the first question
    the score is 2. *)
Theorem unanswered_keyless_question_scores :
  let quizState := Paged.handleFileUpload [quiz_row_keyed; quiz_row_no_key] in
  let listed := Listed.handleFileUpload [quiz_row_keyed; quiz_row_no_key] in
  correct_option <$> questions quizState = [Some "b"; None] /\
  selectedAnswers quizState = ∅ /\
  score (handleSubmit quizState) = 1%Z /\
  score (handleSubmit (Paged.handleAnswerSelect "B" quizState)) = 2%Z /\
  score (handleSubmit listed) = 1%Z /\
  (fun q => map (isCorrect q) ["A"; "B"; "C"; "D"])
    <$> questions quizState !! 1%nat
  = Some [false; false; false; false].
Proof.
  vm_compute. repeat split.
Qed.
End Scoring.

(** ** Worked instances on the sample data *)

Section Instances.
Import Pyqs View Sample.

Lemma collection_never_mutated_witness :
  let '(st', s') := updateDisplayedQuestions halves ready_random store3 in
  allQuestions st' = allQuestions ready_random /\
  at_loc s' (allQuestions st') = Some questions3 /\
  displayedQuestions st' <> allQuestions st' /\
  (forall r l, at_loc store3 r = Some l -> at_loc s' r = Some l) /\
  snd (deriveAvailableSubjects st' s') = s'.
Proof.
  exact (collection_never_mutated halves ready_random store3 questions3
           eq_refl).
Defined.

Lemma ids_follow_input_order_witness :
  (let '(st', s') :=
     fetchAndParseCsv (fun _ => three_rows) csv_served initialState
       initialStore in
   exists status csvText qs,
     csv_served = Responded true status csvText /\
     at_loc s' (allQuestions st') = Some qs /\
     length qs = length (data three_rows) /\
     id <$> qs = seqZ 1 (Z.of_nat (length qs)) /\
     (forall k, qs !! k = processRow k <$> data three_rows !! k) /\
     (forall k q, qs !! k = Some q -> id q = Z.of_nat k + 1)%Z)
  /\ (let '(st', s') := updateDisplayedQuestions halves ready_random store3 in
      exists shown kept,
        at_loc s' (displayedQuestions st') = Some shown /\
        kept `sublist_of` questions3 /\ shown ≡ₚ kept /\
        (isRandom ready_random = false -> shown = kept) /\
        (forall q, q ∈ shown -> q ∈ questions3) /\
        at_loc s' (allQuestions st') = Some questions3 /\
        (forall parsed, questions3 = processedData parsed ->
         forall q, q ∈ shown ->
         exists k row, parsed !! k = Some row /\ q = processRow k row /\
                       id q = (Z.of_nat k + 1)%Z)).
Proof.
  split.
  - destruct (ids_follow_input_order (fun _ => three_rows) csv_served
                initialState initialStore [] halves [])
      as (H & _).
    destruct (fetchAndParseCsv (fun _ => three_rows) csv_served initialState
                initialStore) as [st' s'] eqn:E.
    apply H.
    change (csvError (fst (st', s')) = None). rewrite <- E.
    vm_compute. reflexivity.
  - destruct (ids_follow_input_order (fun _ => three_rows) csv_served
                ready_random store3 [] halves questions3)
      as (_ & _ & _ & H).
    apply H. reflexivity.
Defined.

End Instances.

(** * Further properties of the pages *)

(** ** Shuffling and the displayed questions *)

Section Shuffle.
Context {T : Type}.

(** Extra X1.  [shuffleArray] returns a location that was not allocated
    before and differs from its argument; the array there is a permutation
    of the argument's elements, of the same length.  The argument array and
    every other array of the store keep their contents, and the random
    source is drawn from once per element. *)
Theorem shuffleArray_permutes_a_copy rnd (s : store T) array (l : list T) :
  at_loc s array = Some l ->
  let '(newArray, s') := shuffleArray rnd array s in
  newArray <> array /\
  at_loc s newArray = None /\
  at_loc s' array = Some l /\
  (forall r l0, at_loc s r = Some l0 -> at_loc s' r = Some l0) /\
  (exists l', at_loc s' newArray = Some l' /\ l' ≡ₚ l /\
              length l' = length l) /\
  draws s' = (draws s + length l)%nat.
Proof.
  intros Hl. unfold at_loc in *.
  destruct (shuffleArray_spec rnd s array l Hl) as (l' & P & E).
  rewrite E. simpl.
  pose proof (lookup_lt_Some _ _ _ Hl) as Hlt.
  split; [unfold loc in *; lia|].
  split; [by apply lookup_ge_None|].
  split; [by apply lookup_app_l_Some|].
  split; [intros r l0 H; by apply lookup_app_l_Some|].
  split; [|done].
  exists l'. split; [by rewrite lookup_app_r, Nat.sub_diag by lia|].
  split; [done|]. by rewrite P.
Qed.
End Shuffle.

Section Displayed.
Import Pyqs View Sample Events.

Lemma displayedAfterUpdate_spec rnd st s all :
  at_loc s (allQuestions st) = Some all ->
  displayedAfterUpdate rnd st s ≡ₚ filteredQuestions st all /\
  (isRandom st = false ->
   displayedAfterUpdate rnd st s = filteredQuestions st all).
Proof.
  intros Hall. unfold displayedAfterUpdate.
  destruct (updateDisplayedQuestions_spec rnd st s all Hall)
    as (r & s' & l & E & G & L & M & P & Q).
  rewrite E. simpl. unfold at_loc. rewrite L. simpl. done.
Qed.

Lemma elem_of_keep_when c p l (q : Question) :
  q ∈ keep_when c p l <-> q ∈ l /\ (negb c || p q) = true.
Proof.
  unfold keep_when. destruct c; simpl.
  - apply elem_of_filter_bool.
  - tauto.
Qed.

Lemma elem_of_keep_id t l (q : Question) :
  q ∈ keep_id t l <->
  q ∈ l /\ (if nonempty t then
              match parseInt t with
              | Some searchId => id_is searchId q
              | None => true
              end
            else true) = true.
Proof.
  unfold keep_id. destruct (nonempty t); [|tauto].
  destruct (parseInt t); [apply elem_of_filter_bool | tauto].
Qed.

Lemma elem_of_filteredQuestions st all q :
  q ∈ filteredQuestions st all <->
  (isLoadingCsv st || truthy_str (csvError st)
   || bool_decide (length all = 0%nat)) = false /\
  q ∈ all /\ passes st q = true.
Proof.
  unfold filteredQuestions, passes.
  destruct (isLoadingCsv st || truthy_str (csvError st)
            || bool_decide (length all = 0%nat)).
  - rewrite elem_of_nil. split; [done|]. by intros [? _].
  - rewrite elem_of_keep_when, elem_of_keep_id, !elem_of_keep_when.
    rewrite !andb_true_iff. tauto.
Qed.

(** Extra X6.  After [updateDisplayedQuestions], with or without the
    random flag, a question is displayed exactly when the data is loaded
    without error, the question belongs to the collection and it passes
    every filter that is set and the search; the displayed array is never
    longer than the collection. *)
Theorem displayed_iff_passes_all_filters rnd st s all q :
  at_loc s (allQuestions st) = Some all ->
  (q ∈ displayedAfterUpdate rnd st s <->
   (isLoadingCsv st || truthy_str (csvError st)) = false /\
   q ∈ all /\ passes st q = true)
  /\ (length (displayedAfterUpdate rnd st s) <= length all)%nat.
Proof.
  intros Hall.
  destruct (displayedAfterUpdate_spec rnd st s all Hall) as [P _].
  split.
  - rewrite P, elem_of_filteredQuestions.
    split.
    + intros (Hg & Hq & Hp). apply orb_false_iff in Hg as [Hg _]. done.
    + intros (Hg & Hq & Hp). rewrite Hg. simpl.
      split; [|done]. apply bool_decide_eq_false. intros Hlen.
      apply nil_length_inv in Hlen. subst. by apply elem_of_nil in Hq.
  - rewrite P. apply sublist_length, filteredQuestions_sublist.
Qed.

Lemma lower_upper_char c : lower_char (upper_char c) = lower_char c.
Proof. destruct c as [[] [] [] [] [] [] [] []]; reflexivity. Qed.

Lemma toLowerCase_toUpperCase t : toLowerCase (toUpperCase t) = toLowerCase t.
Proof.
  induction t as [|c t IH]; [done|].
  unfold toLowerCase, toUpperCase in *. simpl.
  by rewrite lower_upper_char, IH.
Qed.

Lemma toLowerCase_nonempty t t' :
  toLowerCase t = toLowerCase t' -> nonempty t = nonempty t'.
Proof. by destruct t, t'. Qed.

(** Extra X7.  Without the random flag, two search terms with the same
    lower-case form display the same questions in the same order; so do
    a term and its upper-case form, when the term has none of the micro
    sign, sharp s and y with diaeresis. *)
Theorem search_ignores_case rnd st s all t t' :
  at_loc s (allQuestions st) = Some all ->
  isRandom st = false ->
  toLowerCase t = toLowerCase t' ->
  displayedAfterUpdate rnd (setDebouncedSearchTerm t st) s
  = displayedAfterUpdate rnd (setDebouncedSearchTerm t' st) s
  /\ (Headers.all_chars (fun c => negb (upper_leaves_range c)) t = true ->
      displayedAfterUpdate rnd (setDebouncedSearchTerm (toUpperCase t) st) s
      = displayedAfterUpdate rnd (setDebouncedSearchTerm t st) s).
Proof.
  intros Hall Hr.
  assert (Hgen : forall u u', toLowerCase u = toLowerCase u' ->
            displayedAfterUpdate rnd (setDebouncedSearchTerm u st) s
            = displayedAfterUpdate rnd (setDebouncedSearchTerm u' st) s).
  { intros u u' Hu.
    destruct (displayedAfterUpdate_spec rnd (setDebouncedSearchTerm u st)
                s all Hall) as [_ H1].
    destruct (displayedAfterUpdate_spec rnd (setDebouncedSearchTerm u' st)
                s all Hall) as [_ H2].
    rewrite H1, H2 by done.
    unfold filteredQuestions. simpl.
    by rewrite Hu, (toLowerCase_nonempty u u' Hu). }
  intros Ht. split; [by apply Hgen|].
  intros _. apply Hgen, toLowerCase_toUpperCase.
Qed.

Lemma filter_id_at_most_one n (l : list Question) :
  NoDup (id <$> l) -> (length (List.filter (id_is n) l) <= 1)%nat.
Proof.
  induction l as [|q l IH]; simpl; [lia|].
  intros Hnd. apply NoDup_cons in Hnd as [Hq Hnd].
  unfold id_is at 1. case_bool_decide as Hid; simpl; [|by apply IH].
  assert (List.filter (id_is n) l = []) as ->; [|simpl; lia].
  destruct (List.filter (id_is n) l) as [|q' l'] eqn:E; [done|].
  exfalso. apply Hq.
  assert (Hq' : q' ∈ List.filter (id_is n) l) by (rewrite E; apply list_elem_of_here).
  apply elem_of_filter_bool in Hq' as [Hq' Hn].
  apply bool_decide_eq_true in Hn.
  apply list_elem_of_fmap. exists q'. split; [congruence|done].
Qed.

(** Extra X8.  On a collection with distinct ids and with text in the id
    filter: if the text parses to a number, at most one question is
    displayed and every displayed question has that id; if it does not
    parse, the id filter is ignored, the displayed questions being those
    shown with the id filter empty (up to the order the shuffle gives). *)
Theorem id_filter_shows_at_most_one rnd st s all :
  at_loc s (allQuestions st) = Some all ->
  NoDup (id <$> all) ->
  nonempty (Filters.id (filters st)) = true ->
  match parseInt (Filters.id (filters st)) with
  | Some n =>
      (length (displayedAfterUpdate rnd st s) <= 1)%nat /\
      (forall q, q ∈ displayedAfterUpdate rnd st s -> id q = n)
  | None =>
      displayedAfterUpdate rnd st s
      ≡ₚ displayedAfterUpdate rnd
           (setFilters (handleFilterChange "id" EmptyString (filters st)) st)
           s
  end.
Proof.
  intros Hall Hnd Hne.
  destruct (displayedAfterUpdate_spec rnd st s all Hall) as [P _].
  destruct (parseInt (Filters.id (filters st))) as [n|] eqn:Hp.
  - split.
    + rewrite P. unfold filteredQuestions.
      destruct (_ || _); [simpl; lia|].
      etrans; [apply sublist_length, keep_when_sublist|].
      unfold keep_id. rewrite Hne, Hp.
      etrans; [|apply (filter_id_at_most_one n all Hnd)].
      apply sublist_length.
      assert (Hsub : forall l1 l2 : list Question, l1 `sublist_of` l2 ->
                List.filter (id_is n) l1
                `sublist_of` List.filter (id_is n) l2).
      { induction 1 as [|x l1 l2 _ IH|x l1 l2 _ IH]; simpl; [done| |].
        - destruct (id_is n x); [by constructor | done].
        - destruct (id_is n x); [by constructor | done]. }
      apply Hsub.
      repeat (etrans; [apply keep_when_sublist|]). done.
    + intros q Hq. rewrite P in Hq.
      apply elem_of_filteredQuestions in Hq as (_ & _ & Hq).
      unfold passes in Hq. rewrite Hne, Hp in Hq.
      rewrite !andb_true_iff in Hq. destruct Hq as [[_ Hq] _].
      by apply bool_decide_eq_true in Hq.
  - destruct (displayedAfterUpdate_spec rnd
                (setFilters
                   (handleFilterChange "id" EmptyString (filters st)) st)
                s all Hall) as [P' _].
    rewrite P, P'. unfold filteredQuestions, keep_id. simpl.
    by rewrite Hne, Hp.
Qed.

Lemma processedData_distinct_ids rows : NoDup (id <$> processedData rows).
Proof. rewrite processedData_ids. apply NoDup_seqZ. Qed.

Lemma id_filter_shows_at_most_one_witness :
  let st := setFilters (handleFilterChange "id" "2" initialFilters) ready in
  (length (displayedAfterUpdate halves st store3) <= 1)%nat /\
  (forall q, q ∈ displayedAfterUpdate halves st store3 -> id q = 2%Z).
Proof.
  intros st.
  exact (id_filter_shows_at_most_one halves st store3 questions3 eq_refl
           (processedData_distinct_ids [row1; row2; row3]) eq_refl).
Defined.

Lemma displayed_iff_passes_all_filters_witness :
  let st := setFilters (handleFilterChange "paper" "GS1" initialFilters)
              ready in
  processRow 0 row1 ∈ displayedAfterUpdate halves st store3 <->
  (isLoadingCsv st || truthy_str (csvError st)) = false /\
  processRow 0 row1 ∈ questions3 /\ passes st (processRow 0 row1) = true.
Proof.
  intros st.
  apply (displayed_iff_passes_all_filters halves st store3 questions3
           (processRow 0 row1)).
  reflexivity.
Defined.

Lemma search_ignores_case_witness :
  displayedAfterUpdate halves (setDebouncedSearchTerm "WHO" ready) store3
  = displayedAfterUpdate halves (setDebouncedSearchTerm "who" ready) store3
  /\ displayedAfterUpdate halves
       (setDebouncedSearchTerm (toUpperCase "who") ready) store3
     = displayedAfterUpdate halves (setDebouncedSearchTerm "who" ready)
         store3.
Proof.
  split.
  - apply (search_ignores_case halves ready store3 questions3 "WHO" "who");
      reflexivity.
  - apply (search_ignores_case halves ready store3 questions3 "who" "who");
      reflexivity.
Defined.

Lemma shuffleArray_permutes_a_copy_witness :
  let '(newArray, s') := shuffleArray halves 0%nat store3 in
  newArray <> 0%nat /\
  at_loc store3 newArray = None /\
  at_loc s' 0%nat = Some questions3 /\
  (forall r l0, at_loc store3 r = Some l0 -> at_loc s' r = Some l0) /\
  (exists l', at_loc s' newArray = Some l' /\ l' ≡ₚ questions3 /\
              length l' = length questions3) /\
  draws s' = (draws store3 + length questions3)%nat.
Proof.
  exact (shuffleArray_permutes_a_copy halves store3 0%nat questions3 eq_refl).
Defined.
End Displayed.

(** ** The session on the displayed questions *)

Section Session.
Import Pyqs View Sample Events Rendering.

Lemma handle_displayed s st e :
  displayedQuestions (handle s st e) = displayedQuestions st.
Proof.
  destruct e; simpl; try done.
  - unfold handleOptionSelect. by destruct (negb _).
  - unfold handleSubmit. by destruct (_ && _).
  - unfold handlePrevious. by case_bool_decide.
  - unfold handleNext. by case_bool_decide.
  - pose proof (handleJumpTo_cases s st) as H. simpl in H.
    destruct (parseInt (jumpToInput st)); [case_bool_decide|];
      by rewrite H.
Qed.

Lemma handle_length s st e :
  displayedLength s (handle s st e) = displayedLength s st.
Proof. unfold displayedLength. by rewrite handle_displayed. Qed.

Lemma handle_in_bounds s st e :
  in_bounds s st -> in_bounds s (handle s st e).
Proof.
  intros [Hc Hs]. unfold in_bounds. rewrite handle_length.
  destruct e; simpl.
  - unfold handleOptionSelect. by destruct (negb _).
  - unfold handleSubmit. destruct (_ && _); [|done]. simpl.
    split; [done|]. intros i Hi.
    apply elem_of_union in Hi as [Hi|Hi]; [by apply Hs|].
    apply elem_of_singleton in Hi as ->. done.
  - unfold handlePrevious. case_bool_decide; [|done]. simpl.
    split; [lia|done].
  - unfold handleNext. case_bool_decide; [|done]. simpl.
    split; [lia|done].
  - done.
  - pose proof (handleJumpTo_cases s st) as H. simpl in H.
    destruct (parseInt (jumpToInput st)); [case_bool_decide|];
      rewrite H; simpl; try done.
    split; [lia|done].
Qed.

Lemma handle_submitted_grows s st e :
  submittedIndices st ⊆ submittedIndices (handle s st e).
Proof.
  destruct e; simpl.
  - unfold handleOptionSelect. by destruct (negb _).
  - unfold handleSubmit. destruct (_ && _); [|done]. simpl.
    apply union_subseteq_l.
  - unfold handlePrevious. by case_bool_decide.
  - unfold handleNext. by case_bool_decide.
  - done.
  - pose proof (handleJumpTo_cases s st) as H. simpl in H.
    destruct (parseInt (jumpToInput st)); [case_bool_decide|];
      by rewrite H.
Qed.

Lemma in_bounds_currentQuestion s st :
  in_bounds s st -> is_Some (currentQuestion s st).
Proof.
  intros [Hc _]. unfold currentQuestion.
  unfold displayedLength, len, mbind, M_bind, mret, M_ret in Hc.
  destruct (contents (displayedQuestions st) s) as [shown s'] eqn:E.
  simpl in *.
  rewrite bool_decide_true by lia. rewrite bool_decide_true by lia.
  apply lookup_lt_is_Some. lia.
Qed.

(** Extra X10.  If the current index and the submitted indices are
    positions of the displayed array, they still are after any sequence of
    option selections, submissions, next, previous, jump-field edits and
    jumps; the current question is then defined, the displayed array is the
    same location, and no submitted index is ever removed. *)
Theorem session_stays_in_bounds s st evs :
  in_bounds s st ->
  in_bounds s (run s evs st) /\
  is_Some (currentQuestion s (run s evs st)) /\
  displayedQuestions (run s evs st) = displayedQuestions st /\
  submittedIndices st ⊆ submittedIndices (run s evs st).
Proof.
  unfold run. revert st.
  induction evs as [|e evs IH]; intros st Hb; simpl.
  - split; [done|]. split; [by apply in_bounds_currentQuestion|]. done.
  - destruct (IH (handle s st e)) as (H1 & H2 & H3 & H4).
    { by apply handle_in_bounds. }
    split; [done|]. split; [done|].
    split; [by rewrite H3, handle_displayed|].
    etrans; [apply (handle_submitted_grows s st e)|done].
Qed.

(** Extra X11.  From a position before the last, next followed by
    previous returns to the same index; from a position after the first and
    not past the last, previous followed by next does.  Neither round trip
    changes the submitted indices. *)
Theorem previous_undoes_next s st :
  ((0 <= currentIndex st < displayedLength s st - 1)%Z ->
   currentIndex (handlePrevious (handleNext s st)) = currentIndex st)
  /\ ((0 < currentIndex st <= displayedLength s st - 1)%Z ->
      currentIndex (handleNext s (handlePrevious st)) = currentIndex st)
  /\ submittedIndices (handlePrevious (handleNext s st)) = submittedIndices st
  /\ submittedIndices (handleNext s (handlePrevious st)) = submittedIndices st.
Proof.
  repeat split.
  - intros H. unfold handleNext. rewrite bool_decide_true by lia.
    unfold handlePrevious. simpl. rewrite bool_decide_true by lia. simpl. lia.
  - intros H. unfold handlePrevious. rewrite bool_decide_true by lia.
    unfold handleNext.
    change (displayedLength s
              (setSelectedOption None
                 (setCurrentIndex (currentIndex st - 1) st)))
      with (displayedLength s st).
    simpl. rewrite bool_decide_true by lia. simpl. lia.
  - unfold handleNext. case_bool_decide; unfold handlePrevious;
      case_bool_decide; done.
  - unfold handlePrevious. case_bool_decide; unfold handleNext;
      case_bool_decide; done.
Qed.

Lemma previous_undoes_next_witness :
  currentIndex (handlePrevious (handleNext store3 ready)) = currentIndex ready.
Proof.
  apply (previous_undoes_next store3 ready). vm_compute.
  split; [discriminate | reflexivity].
Defined.

(** Extra X12.  At a submitted position selecting an option and
    submitting change nothing; submitting with no option selected changes
    nothing; submitting twice is submitting once.  After submitting with an
    option selected the position is submitted, and a later selection leaves
    the state, hence the selected option, as it was. *)
Theorem submitted_position_is_locked st option :
  (currentIndex st ∈ submittedIndices st ->
   handleOptionSelect option st = st /\ handleSubmit st = st)
  /\ (selectedOption st = None -> handleSubmit st = st)
  /\ handleSubmit (handleSubmit st) = handleSubmit st
  /\ (selectedOption st <> None ->
      currentIndex st ∈ submittedIndices (handleSubmit st) /\
      handleOptionSelect option (handleSubmit st) = handleSubmit st /\
      selectedOption (handleOptionSelect option (handleSubmit st))
      = selectedOption st).
Proof.
  assert (Hlock : forall st', currentIndex st' ∈ submittedIndices st' ->
            handleOptionSelect option st' = st' /\ handleSubmit st' = st').
  { intros st' H. unfold handleOptionSelect, handleSubmit.
    rewrite (bool_decide_true _ H). simpl. by rewrite andb_false_r. }
  assert (Hin : selectedOption st <> None ->
            currentIndex (handleSubmit st) ∈ submittedIndices (handleSubmit st)
            /\ currentIndex (handleSubmit st) = currentIndex st
            /\ selectedOption (handleSubmit st) = selectedOption st).
  { intros Hsel. unfold handleSubmit.
    rewrite (bool_decide_true _ Hsel). simpl.
    case_bool_decide as Hs; simpl; [done|].
    split; [|done]. apply elem_of_union_r. by apply elem_of_singleton. }
  split; [apply Hlock|]. split.
  { intros Hn. unfold handleSubmit.
    by rewrite bool_decide_false by (by intros H; apply H). }
  split.
  { destruct (decide (selectedOption st = None)) as [Hn|Hn].
    - unfold handleSubmit at 2.
      rewrite bool_decide_false by (by intros H; apply H). simpl.
      unfold handleSubmit.
      by rewrite bool_decide_false by (by intros H; apply H).
    - destruct (Hin Hn) as (H1 & _ & _). by apply Hlock. }
  intros Hn. destruct (Hin Hn) as (H1 & H2 & H3).
  destruct (Hlock _ H1) as [E _].
  split; [by rewrite <- H2|]. split; [done|]. by rewrite E.
Qed.

Lemma submitted_position_is_locked_witness :
  let st := handleOptionSelect "A" ready in
  currentIndex st ∈ submittedIndices (handleSubmit st) /\
  handleOptionSelect "B" (handleSubmit st) = handleSubmit st /\
  selectedOption (handleOptionSelect "B" (handleSubmit st)) = Some "A".
Proof.
  intros st.
  destruct (submitted_position_is_locked st "B") as (_ & _ & _ & H).
  apply H. discriminate.
Defined.

(** Extra X13.  A handler behind a disabled button does nothing: previous
    at index 0, next at the last index, and submit exactly when no option
    is selected or the position is submitted.  Conversely, for an index in
    range, previous (next) leaves the state unchanged only where its button
    is disabled. *)
Theorem disabled_buttons_do_nothing s st :
  (previousDisabled st = true -> handlePrevious st = st)
  /\ (nextDisabled s st = true -> handleNext s st = st)
  /\ (submitDisabled st = true <-> handleSubmit st = st)
  /\ ((0 <= currentIndex st)%Z ->
      handlePrevious st = st -> previousDisabled st = true)
  /\ ((currentIndex st <= displayedLength s st - 1)%Z ->
      handleNext s st = st -> nextDisabled s st = true).
Proof.
  unfold previousDisabled, nextDisabled, submitDisabled, isCurrentSubmitted.
  unfold handlePrevious, handleNext, handleSubmit.
  split.
  { intros H. apply bool_decide_eq_true in H.
    by rewrite bool_decide_false by lia. }
  split.
  { intros H. apply bool_decide_eq_true in H.
    by rewrite bool_decide_false by lia. }
  split.
  { split.
    - intros H. apply orb_true_iff in H as [H|H];
        apply bool_decide_eq_true in H.
      + by rewrite bool_decide_false by (by intros H'; apply H').
      + rewrite (bool_decide_true _ H). simpl. by rewrite andb_false_r.
    - case_bool_decide as Hsel; simpl.
      + case_bool_decide as Hs; simpl; [intros _; apply orb_true_r|].
        intros E. apply (f_equal submittedIndices) in E. simpl in E.
        exfalso. apply Hs. rewrite <- E.
        apply elem_of_union_r. by apply elem_of_singleton.
      + intros _. apply orb_true_iff. left. apply bool_decide_eq_true.
        destruct (selectedOption st) as [a|]; [|done].
        discriminate Hsel. }
  split.
  { intros Hc. case_bool_decide as H; [|intros _; apply bool_decide_eq_true; lia].
    intros E. apply (f_equal currentIndex) in E. simpl in E. lia. }
  intros Hc. case_bool_decide as H; [|intros _; apply bool_decide_eq_true; lia].
  intros E. apply (f_equal currentIndex) in E. simpl in E. lia.
Qed.

Lemma disabled_buttons_do_nothing_witness :
  handlePrevious ready = ready.
Proof.
  apply (disabled_buttons_do_nothing store3 ready). reflexivity.
Defined.

(** Extra X9.  Every run of [updateDisplayedQuestions] resets the current
    index to 0, the selected option to null, the submitted indices to the
    empty set and the jump field to the empty string, and keeps the
    filters.  If the displayed array is then non-empty the state is within
    its bounds and the current question is defined; if it is empty there is
    no current question. *)
Theorem update_resets_the_session rnd st s all :
  at_loc s (allQuestions st) = Some all ->
  let '(st', s') := updateDisplayedQuestions rnd st s in
  currentIndex st' = 0%Z /\ selectedOption st' = None /\
  submittedIndices st' = ∅ /\ jumpToInput st' = EmptyString /\
  filters st' = filters st /\
  ((0 < displayedLength s' st')%Z ->
   in_bounds s' st' /\ is_Some (currentQuestion s' st')) /\
  (displayedLength s' st' = 0%Z -> currentQuestion s' st' = None).
Proof.
  intros Hall.
  destruct (updateDisplayedQuestions_spec rnd st s all Hall)
    as (r & s' & l & E & G & L & M & P & Q).
  rewrite E. simpl.
  do 5 (split; [done|]). split.
  - intros Hpos.
    assert (Hb : in_bounds s' (show r st)).
    { split; [simpl; lia|]. intros i Hi. by apply elem_of_empty in Hi. }
    split; [done|]. by apply in_bounds_currentQuestion.
  - intros H0. unfold currentQuestion.
    unfold displayedLength, len, mbind, M_bind, mret, M_ret in H0.
    destruct (contents (displayedQuestions (show r st)) s') as [shown s2].
    simpl in *. by rewrite bool_decide_false by lia.
Qed.

Lemma update_resets_the_session_witness :
  let '(st', s') := updateDisplayedQuestions halves ready_random store3 in
  currentIndex st' = 0%Z /\ selectedOption st' = None /\
  submittedIndices st' = ∅ /\ jumpToInput st' = EmptyString /\
  filters st' = filters ready_random /\
  ((0 < displayedLength s' st')%Z ->
   in_bounds s' st' /\ is_Some (currentQuestion s' st')) /\
  (displayedLength s' st' = 0%Z -> currentQuestion s' st' = None).
Proof.
  exact (update_resets_the_session halves ready_random store3 questions3
           eq_refl).
Defined.

Lemma session_stays_in_bounds_witness :
  in_bounds store3
    (run store3 [SelectOption "A"; Submit; Next; Next; JumpInput "9"; JumpTo;
                 Previous; Previous] ready) /\
  is_Some (currentQuestion store3
             (run store3 [SelectOption "A"; Submit; Next; Next;
                          JumpInput "9"; JumpTo; Previous; Previous] ready)).
Proof.
  destruct (session_stays_in_bounds store3 ready
              [SelectOption "A"; Submit; Next; Next; JumpInput "9"; JumpTo;
               Previous; Previous]) as (H1 & H2 & _).
  - split; [vm_compute; split; [discriminate | reflexivity]|].
    intros i Hi. by apply elem_of_empty in Hi.
  - split; assumption.
Defined.
End Session.

(** ** Header names *)

Section HeaderFacts.
Import Headers.

Lemma skip_spaces_blank pad s :
  all_chars is_space pad = true -> skip_spaces (pad +:+ s) = skip_spaces s.
Proof.
  induction pad as [|c pad IH]; simpl; [done|].
  intros H. apply andb_true_iff in H as [Hc H]. rewrite Hc. by apply IH.
Qed.

Lemma trim_end_blank pad :
  all_chars is_space pad = true -> trim_end pad = EmptyString.
Proof.
  induction pad as [|c pad IH]; simpl; [done|].
  intros H. apply andb_true_iff in H as [Hc H].
  by rewrite (IH H), Hc.
Qed.

Lemma trim_end_app_blank s pad :
  all_chars is_space pad = true -> trim_end (s +:+ pad) = trim_end s.
Proof.
  intros Hp. induction s as [|c s IH]; simpl.
  - by apply trim_end_blank.
  - by rewrite IH.
Qed.

Lemma trim_app_blank s pad :
  all_chars is_space pad = true -> trim (s +:+ pad) = trim s.
Proof.
  intros Hp. unfold trim. induction s as [|c s IH].
  - change (EmptyString +:+ pad) with pad.
    assert (skip_spaces pad = EmptyString) as ->; [|done].
    clear -Hp. induction pad as [|c pad IH]; simpl in *; [done|].
    apply andb_true_iff in Hp as [Hc Hp]. rewrite Hc. by apply IH.
  - change (String c s +:+ pad) with (String c (s +:+ pad)).
    cbn [skip_spaces].
    destruct (is_space c); [done|].
    change (String c (s +:+ pad)) with (String c s +:+ pad).
    by apply trim_end_app_blank.
Qed.

Lemma trim_padded pad1 s pad2 :
  all_chars is_space pad1 = true -> all_chars is_space pad2 = true ->
  trim (pad1 +:+ s +:+ pad2) = trim s.
Proof.
  intros H1 H2. unfold trim. rewrite skip_spaces_blank by done.
  by apply trim_app_blank.
Qed.

Lemma underscore_runs_no_space s : forall b,
  all_chars (fun c => negb (is_space c)) (underscore_runs b s) = true.
Proof.
  induction s as [|c s IH]; intros b; simpl; [done|].
  destruct (is_space c) eqn:E.
  - destruct b; [apply IH|]. simpl. apply IH.
  - simpl. by rewrite E, IH.
Qed.

Lemma lower_char_no_upper c : is_upper_letter (lower_char c) = false.
Proof. destruct c as [[] [] [] [] [] [] [] []]; reflexivity. Qed.

Lemma toLowerCase_no_upper s :
  all_chars (fun c => negb (is_upper_letter c)) (toLowerCase s) = true.
Proof.
  induction s as [|c s IH]; simpl; [done|].
  unfold toLowerCase in *. by rewrite lower_char_no_upper, IH.
Qed.

Lemma underscore_runs_no_upper s : forall b,
  all_chars (fun c => negb (is_upper_letter c)) s = true ->
  all_chars (fun c => negb (is_upper_letter c)) (underscore_runs b s) = true.
Proof.
  induction s as [|c s IH]; intros b; simpl; [done|].
  intros H. apply andb_true_iff in H as [Hc H].
  destruct (is_space c).
  - destruct b; [by apply IH|]. simpl. by apply IH.
  - simpl. by rewrite Hc, IH.
Qed.

Lemma no_space_fixed s :
  all_chars (fun c => negb (is_space c)) s = true ->
  trim s = s /\ forall b, underscore_runs b s = s.
Proof.
  intros H. split.
  - unfold trim.
    assert (skip_spaces s = s) as ->.
    { destruct s as [|c s]; [done|]. simpl in *.
      apply andb_true_iff in H as [Hc _].
      by destruct (is_space c). }
    induction s as [|c s IH]; simpl in *; [done|].
    apply andb_true_iff in H as [Hc H].
    rewrite (IH H). by destruct (is_space c).
  - induction s as [|c s IH]; intros b; simpl in *; [done|].
    apply andb_true_iff in H as [Hc H].
    destruct (is_space c); [done|]. by rewrite IH.
Qed.

Lemma no_upper_fixed s :
  all_chars (fun c => negb (is_upper_letter c)) s = true -> toLowerCase s = s.
Proof.
  induction s as [|c s IH]; simpl; [done|].
  intros H. apply andb_true_iff in H as [Hc H].
  unfold toLowerCase in *. simpl. rewrite (IH H).
  unfold lower_char. by destruct (is_upper_letter c).
Qed.

Lemma no_upper_unknown image_key s :
  all_chars (fun c => negb (is_upper_letter c)) s = true ->
  List.find (fun case => String.eqb s (fst case)) (known_headers image_key)
  = None.
Proof.
  intros H. unfold known_headers. cbn [List.find fst snd].
  repeat (match goal with
          | |- context [String.eqb s ?k] =>
              destruct (String.eqb_spec s k) as [->|_];
              [discriminate H|]
          end).
  reflexivity.
Qed.

(** Extra X2.  For every header of code units below U+0100,
    [transformHeader] of the later revision is idempotent, and its result
    contains neither white space (the no-break space included) nor an
    upper-case letter (the accented ones included). *)
Theorem transformHeader_is_idempotent header :
  transformHeader (transformHeader header) = transformHeader header /\
  all_chars (fun c => negb (is_space c)) (transformHeader header) = true /\
  all_chars (fun c => negb (is_upper_letter c)) (transformHeader header) = true.
Proof.
  unfold transformHeader.
  assert (Hcases :
    (exists case, In case (known_headers "image_url") /\
                  transformHeader_with "image_url" header = snd case)
    \/ transformHeader_with "image_url" header
       = underscore_runs false (toLowerCase (trim header))).
  { unfold transformHeader_with.
    destruct (List.find _ (known_headers "image_url")) as [case|] eqn:E.
    - left. exists case. apply find_some in E as [Hin _]. done.
    - by right. }
  destruct Hcases as [(case & Hin & ->) | ->].
  - unfold known_headers in Hin. simpl in Hin.
    repeat (destruct Hin as [<-|Hin]; [vm_compute; by repeat split|]).
    destruct Hin.
  - set (r := underscore_runs false (toLowerCase (trim header))).
    assert (Hs : all_chars (fun c => negb (is_space c)) r = true)
      by apply underscore_runs_no_space.
    assert (Hu : all_chars (fun c => negb (is_upper_letter c)) r = true)
      by apply underscore_runs_no_upper, toLowerCase_no_upper.
    split; [|done].
    destruct (no_space_fixed r Hs) as [Ht Hr].
    unfold transformHeader_with.
    by rewrite Ht, no_upper_unknown, no_upper_fixed, Hr.
Qed.

(** Extra X3.  In both revisions, white space before and after a header
    (TAB, LF, VT, FF, CR, SP and the no-break space) does not change the
    key [transformHeader] gives it. *)
Theorem transformHeader_ignores_padding image_key pad1 header pad2 :
  all_chars is_space pad1 = true -> all_chars is_space pad2 = true ->
  transformHeader_with image_key (pad1 +:+ header +:+ pad2)
  = transformHeader_with image_key header.
Proof.
  intros H1 H2. unfold transformHeader_with.
  by rewrite trim_padded.
Qed.

Lemma transformHeader_ignores_padding_witness :
  transformHeader_with "image_url"
    (String "160"%char " " +:+ "Correct Answer" +:+ " ")
  = transformHeader_with "image_url" "Correct Answer".
Proof.
  apply (transformHeader_ignores_padding "image_url" (String "160"%char " ")
           "Correct Answer" " "); reflexivity.
Defined.
End HeaderFacts.

(** ** Sorted option lists *)

Section Sorting.
Import Collections Options.

Lemma string_leb_trans a : forall b c,
  String.leb a b = true -> String.leb b c = true -> String.leb a c = true.
Proof.
  unfold String.leb.
  induction a as [|x a IH]; intros [|y b] [|z c]; simpl; try done.
  unfold Ascii.compare.
  destruct (N.compare_spec (N_of_ascii x) (N_of_ascii y)) as [E1|L1|G1];
    destruct (N.compare_spec (N_of_ascii y) (N_of_ascii z)) as [E2|L2|G2];
    destruct (N.compare_spec (N_of_ascii x) (N_of_ascii z)) as [E3|L3|G3];
    try done; try lia.
  apply IH.
Qed.

Lemma sort_le_total a b : sort_le a b = true \/ sort_le b a = true.
Proof. apply String.leb_total. Qed.

Lemma sort_le_trans a b c :
  sort_le a b = true -> sort_le b c = true -> sort_le a c = true.
Proof. apply string_leb_trans. Qed.

Lemma insert_by_perm le x l : insert_by le x l ≡ₚ x :: l.
Proof.
  induction l as [|y l IH]; simpl; [done|].
  destruct (le x y); [done|]. rewrite IH. apply Permutation_swap.
Qed.

Lemma sort_by_perm le l : sort_by le l ≡ₚ l.
Proof.
  induction l as [|x l IH]; simpl; [done|].
  by rewrite insert_by_perm, IH.
Qed.

Lemma sort_as_sort_by l : sort l = sort_by sort_le l.
Proof.
  induction l as [|x l IH]; simpl; [done|]. rewrite IH.
  generalize (sort_by sort_le l). intros k.
  induction k as [|y k IHk]; simpl; [done|]. by rewrite IHk.
Qed.

Lemma insert_by_sorted (le : value -> value -> bool) (P : value -> Prop) x l :
  (forall a b, P a -> P b -> le a b = true \/ le b a = true) ->
  (forall a b c, P a -> P b -> P c ->
                 le a b = true -> le b c = true -> le a c = true) ->
  P x -> Forall P l ->
  StronglySorted (fun a b => le a b = true) l ->
  StronglySorted (fun a b => le a b = true) (insert_by le x l).
Proof.
  intros Htot Htrans Hx HP Hs.
  induction Hs as [|y l Hs IH Hy]; simpl.
  - repeat constructor.
  - apply Forall_cons in HP as [Py HP].
    destruct (le x y) eqn:E.
    + constructor; [by constructor|].
      constructor; [done|].
      rewrite Forall_forall in Hy, HP. apply Forall_forall.
      intros z Hz. apply (Htrans x y z); auto.
    + constructor; [by apply IH|].
      rewrite insert_by_perm. constructor; [|done].
      destruct (Htot x y Hx Py) as [H|H]; [congruence|done].
Qed.

Lemma sort_by_sorted (le : value -> value -> bool) (P : value -> Prop) l :
  (forall a b, P a -> P b -> le a b = true \/ le b a = true) ->
  (forall a b c, P a -> P b -> P c ->
                 le a b = true -> le b c = true -> le a c = true) ->
  Forall P l ->
  StronglySorted (fun a b => le a b = true) (sort_by le l).
Proof.
  intros Htot Htrans HP.
  induction HP as [|x l Hx HP IH]; simpl; [constructor|].
  apply (insert_by_sorted le P); try done.
  by rewrite sort_by_perm.
Qed.

Lemma sort_sorted l : StronglySorted (fun a b => sort_le a b = true) (sort l).
Proof.
  rewrite sort_as_sort_by.
  apply (sort_by_sorted sort_le (fun _ => True)).
  - intros a b _ _. apply sort_le_total.
  - intros a b c _ _ _. apply sort_le_trans.
  - by apply Forall_forall.
Qed.
End Sorting.

Section OptionLists.
Import Pyqs View Sample Collections Options.

Lemma elem_of_unique l v : v ∈ unique l <-> v ∈ l.
Proof.
  unfold unique. rewrite elem_of_unique_from, elem_of_nil. tauto.
Qed.

Lemma elem_of_truthy_values (f : Question -> value) (qs : list Question) v :
  v ∈ unique (List.filter truthy (map f qs)) <->
  truthy v = true /\ exists q, q ∈ qs /\ f q = v.
Proof.
  rewrite elem_of_unique, elem_of_filter_bool.
  change (map f qs) with (f <$> qs). rewrite list_elem_of_fmap.
  split.
  - intros [(q & -> & Hq) Hv]. split; [done|]. by exists q.
  - intros (Hv & q & Hq & <-). split; [|done]. by exists q.
Qed.

Lemma strongly_sorted_weaken {A} (R R' : A -> A -> Prop) l :
  (forall a b, R a b -> R' a b) -> StronglySorted R l -> StronglySorted R' l.
Proof.
  intros HR. induction 1 as [|x l Hs IH Hx]; constructor; [done|].
  eapply Forall_impl; [exact Hx|]. intros b. apply HR.
Qed.

(** Extra X15.  The effect that derives the topic options leaves the
    store, the paper options and the year options alone, and yields a
    duplicate-free list in ascending order of the texts.  While loading or
    after an error the list is empty; otherwise its values are exactly the
    truthy topics of the questions whose paper is the selected one, if any
    is selected, and whose subject is the selected one, if any is
    selected. *)
Theorem topic_options_follow_paper_and_subject st lists s all :
  at_loc s (allQuestions st) = Some all ->
  let '(lists', s') := deriveAvailableTopics st lists s in
  s' = s /\
  availablePapers lists' = availablePapers lists /\
  availableYears lists' = availableYears lists /\
  NoDup (availableTopics lists') /\
  StronglySorted (fun a b => sort_le a b = true) (availableTopics lists') /\
  ((isLoadingCsv st || truthy_str (csvError st)) = true ->
   availableTopics lists' = []) /\
  ((isLoadingCsv st || truthy_str (csvError st)) = false ->
   forall v,
     v ∈ availableTopics lists' <->
     truthy v = true /\
     exists q, q ∈ all /\ topic q = v /\
       (Filters.paper (filters st) = EmptyString \/
        paper q = VStr (Filters.paper (filters st))) /\
       (Filters.subject (filters st) = EmptyString \/
        subject q = VStr (Filters.subject (filters st)))).
Proof.
  intros Hall. unfold at_loc in Hall.
  unfold deriveAvailableTopics, contents, mbind, M_bind, mret, M_ret.
  simpl. rewrite Hall. simpl.
  destruct (isLoadingCsv st || truthy_str (csvError st)) eqn:Hg; simpl.
  { do 3 (split; [done|]). split; [constructor|]. split; [constructor|].
    split; done. }
  case_bool_decide as Hlen; simpl.
  { apply nil_length_inv in Hlen. subst.
    do 3 (split; [done|]). split; [constructor|]. split; [constructor|].
    split; [done|]. intros _ v. rewrite elem_of_nil.
    split; [done|]. intros (_ & q & Hq & _). by apply elem_of_nil in Hq. }
  unfold nonempty, truthy.
  set (p := Filters.paper (filters st)).
  set (sj := Filters.subject (filters st)).
  assert (Hpaper : forall q,
    q ∈ (if negb (String.eqb p EmptyString)
         then List.filter (paper_is p) all else all) <->
    q ∈ all /\ (p = EmptyString \/ paper q = VStr p)).
  { intros q. destruct (String.eqb_spec p EmptyString) as [->|Hp]; simpl.
    - split; [intros H; auto | intros [H _]; done].
    - rewrite elem_of_filter_bool. unfold paper_is, strict_eq.
      rewrite bool_decide_eq_true. split.
      + intros [H1 H2]. auto.
      + intros [H1 [H2|H2]]; [done | auto]. }
  split; [done|]. split; [done|]. split; [done|].
  destruct (String.eqb_spec sj EmptyString) as [Hsj|Hsj]; simpl.
  - split; [rewrite sort_perm; apply NoDup_unique_from|].
    split; [apply sort_sorted|]. split; [done|].
    intros _ v. rewrite sort_perm, elem_of_truthy_values.
    split.
    + intros (Hv & q & Hq & Ht). apply Hpaper in Hq as [Hq Hp].
      split; [done|]. exists q. auto.
    + intros (Hv & q & Hq & Ht & Hp & _). split; [done|]. exists q.
      split; [|done]. apply Hpaper. auto.
  - split; [rewrite sort_perm; apply NoDup_unique_from|].
    split; [apply sort_sorted|]. split; [done|].
    intros _ v. rewrite sort_perm, elem_of_truthy_values.
    split.
    + intros (Hv & q & Hq & Ht).
      apply elem_of_filter_bool in Hq as [Hq Hs].
      apply Hpaper in Hq as [Hq Hp].
      apply bool_decide_eq_true in Hs.
      split; [done|]. exists q. auto.
    + intros (Hv & q & Hq & Ht & Hp & [Hs|Hs]); [done|].
      split; [done|]. exists q. split; [|done].
      apply elem_of_filter_bool. split; [apply Hpaper; auto|].
      by apply bool_decide_eq_true.
Qed.

Lemma topic_options_follow_paper_and_subject_witness :
  let st := setFilters (handleFilterChange "subject" "History"
                          (handleFilterChange "paper" "GS1" initialFilters))
              ready in
  let '(lists', s') := deriveAvailableTopics st no_options store3 in
  availableTopics lists' = [VStr "Modern"] /\
  NoDup (availableTopics lists').
Proof.
  intros st.
  pose proof (topic_options_follow_paper_and_subject st no_options store3
                questions3 eq_refl) as H.
  destruct (deriveAvailableTopics st no_options store3) as [lists' s'] eqn:E.
  split; [|apply H].
  apply (f_equal (fun x => availableTopics (fst x))) in E.
  simpl in E. rewrite <- E. reflexivity.
Defined.

(** Extra X16.  The subject options are always duplicate-free and in
    ascending order of their texts. *)
Theorem subject_options_are_sorted st s :
  StronglySorted (fun a b => sort_le a b = true)
    (availableSubjects (fst (deriveAvailableSubjects st s))) /\
  NoDup (availableSubjects (fst (deriveAvailableSubjects st s))).
Proof.
  unfold deriveAvailableSubjects, contents, mbind, M_bind, mret, M_ret.
  simpl. destruct (_ || _); simpl; [split; constructor|].
  destruct (negb _); simpl; split;
    first [apply sort_sorted | rewrite sort_perm; apply NoDup_unique_from].
Qed.

Lemma deriveFilterOptions_cases st lists s all :
  at_loc s (allQuestions st) = Some all ->
  deriveFilterOptions st lists s
  = if isLoadingCsv st || truthy_str (csvError st)
       || bool_decide (length all = 0%nat)
    then (setAvailableSubjects [] st, no_options, s)
    else (setIsLoadingCsv false st,
          {| availablePapers :=
               sort (unique (List.filter truthy (map paper all)));
             availableTopics := availableTopics lists;
             availableYears :=
               sort_by years_in_order
                 (unique (List.filter truthy (map year all))) |},
          s).
Proof.
  intros Hall. unfold at_loc in Hall.
  unfold deriveFilterOptions, contents, mbind, M_bind, mret, M_ret.
  simpl. rewrite Hall. simpl.
  destruct (isLoadingCsv st || truthy_str (csvError st)); simpl; [done|].
  by case_bool_decide.
Qed.

(** Extra X17.  The effect that derives the paper and year options does
    not write to the store, and the paper options are duplicate-free and in
    ascending order.  While loading, after an error or on an empty
    collection all option lists are emptied and the loading flag is kept;
    otherwise the loading flag is cleared, the topic options are kept, and
    the paper options are exactly the truthy paper values of the
    collection. *)
Theorem paper_options_cover_the_collection st lists s all :
  at_loc s (allQuestions st) = Some all ->
  let '(st', lists', s') := deriveFilterOptions st lists s in
  s' = s /\
  NoDup (availablePapers lists') /\
  StronglySorted (fun a b => sort_le a b = true) (availablePapers lists') /\
  ((isLoadingCsv st || truthy_str (csvError st)
    || bool_decide (length all = 0%nat)) = true ->
   lists' = no_options /\ availableSubjects st' = [] /\
   isLoadingCsv st' = isLoadingCsv st) /\
  ((isLoadingCsv st || truthy_str (csvError st)
    || bool_decide (length all = 0%nat)) = false ->
   isLoadingCsv st' = false /\
   availableTopics lists' = availableTopics lists /\
   forall v, v ∈ availablePapers lists' <->
             truthy v = true /\ exists q, q ∈ all /\ paper q = v).
Proof.
  intros Hall. rewrite (deriveFilterOptions_cases st lists s all Hall).
  destruct (_ || _); simpl.
  - split; [done|]. split; [constructor|]. split; [constructor|]. done.
  - split; [done|].
    split; [rewrite sort_perm; apply NoDup_unique_from|].
    split; [apply sort_sorted|]. split; [done|].
    intros _. split; [done|]. split; [done|].
    intros v. rewrite sort_perm. apply elem_of_truthy_values.
Qed.

Lemma paper_options_cover_the_collection_witness :
  let '(st', lists', s') := deriveFilterOptions ready no_options store3 in
  s' = store3 /\ NoDup (availablePapers lists').
Proof.
  pose proof (paper_options_cover_the_collection ready no_options store3
                questions3 eq_refl) as H.
  destruct (deriveFilterOptions ready no_options store3) as [[st' lists'] s'].
  split; apply H.
Defined.

Lemma years_in_order_total a b :
  years_in_order a b = true \/ years_in_order b a = true.
Proof.
  unfold years_in_order.
  destruct (parseInt_value a), (parseInt_value b); auto.
  rewrite !Z.leb_le. lia.
Qed.

(** Extra X18.  On a loaded, non-empty collection whose truthy years all
    parse as integers, the year options are exactly the truthy year values
    of the collection, without duplicates, each no earlier than every year
    that follows it in the list. *)
Theorem year_options_are_most_recent_first st lists s all :
  at_loc s (allQuestions st) = Some all ->
  (isLoadingCsv st || truthy_str (csvError st)
   || bool_decide (length all = 0%nat)) = false ->
  (forall q, q ∈ all -> truthy (year q) = true ->
             is_Some (parseInt_value (year q))) ->
  let '(st', lists', s') := deriveFilterOptions st lists s in
  NoDup (availableYears lists') /\
  (forall v, v ∈ availableYears lists' <->
             truthy v = true /\ exists q, q ∈ all /\ year q = v) /\
  StronglySorted
    (fun a b => exists pa pb, parseInt_value a = Some pa /\
                              parseInt_value b = Some pb /\ (pb <= pa)%Z)
    (availableYears lists').
Proof.
  intros Hall Hg Hparse.
  rewrite (deriveFilterOptions_cases st lists s all Hall), Hg. simpl.
  set (ys := unique (List.filter truthy (map year all))).
  assert (HP : Forall (fun v => is_Some (parseInt_value v)) ys).
  { apply Forall_forall. intros v Hv.
    apply elem_of_truthy_values in Hv as (Hv & q & Hq & <-). auto. }
  split; [rewrite sort_by_perm; apply NoDup_unique_from|].
  split; [intros v; rewrite sort_by_perm; apply elem_of_truthy_values|].
  assert (Hs : StronglySorted
                 (fun a b => years_in_order a b = true /\
                             is_Some (parseInt_value a) /\
                             is_Some (parseInt_value b))
                 (sort_by years_in_order ys)).
  { assert (HP' : Forall (fun v => is_Some (parseInt_value v))
                    (sort_by years_in_order ys)) by by rewrite sort_by_perm.
    pose proof (sort_by_sorted years_in_order
                  (fun v => is_Some (parseInt_value v)) ys) as Hss.
    assert (Hso : StronglySorted (fun a b => years_in_order a b = true)
                    (sort_by years_in_order ys)).
    { apply Hss; [| |done].
      - intros a b _ _. apply years_in_order_total.
      - intros a b c [pa Ha] [pb Hb] [pc Hc]. unfold years_in_order.
        rewrite Ha, Hb, Hc, !Z.leb_le. lia. }
    clear -Hso HP'.
    induction Hso as [|x l Hso IH Hx]; [constructor|].
    apply Forall_cons in HP' as [Px HP'].
    constructor; [by apply IH|].
    rewrite Forall_forall in Hx, HP'. apply Forall_forall.
    intros b Hb. auto. }
  eapply strongly_sorted_weaken; [|exact Hs].
  intros a b (Hab & [pa Ha] & [pb Hb]).
  exists pa, pb. split; [done|]. split; [done|].
  unfold years_in_order in Hab. rewrite Ha, Hb in Hab.
  apply Z.leb_le in Hab. lia.
Qed.

Lemma year_options_are_most_recent_first_witness :
  let '(st', lists', s') := deriveFilterOptions ready no_options store3 in
  availableYears lists' = [VStr "2020"; VStr "2019"] /\
  NoDup (availableYears lists').
Proof.
  pose proof (year_options_are_most_recent_first ready no_options store3
                questions3 eq_refl eq_refl) as H.
  destruct (deriveFilterOptions ready no_options store3)
    as [[st' lists'] s'] eqn:E.
  split.
  - apply (f_equal (fun x => availableYears (snd (fst x)))) in E.
    simpl in E. rewrite <- E. reflexivity.
  - apply H. intros q Hq _.
    unfold questions3, processedData in Hq. simpl in Hq.
    repeat (apply elem_of_cons in Hq as [->|Hq]; [by eexists|]).
    by apply elem_of_nil in Hq.
Defined.
End OptionLists.

(** ** Outcomes of a load *)

Section Loading.
Import Pyqs View Sample.

(** Extra X4.  Every load ends with the loading flag cleared, having only
    allocated arrays, in one of two states: no error and the collection
    holding one question per decoded row of a fetched, non-blank text that
    decoded without diagnostics into at least one row; or a non-empty error
    message and an empty collection. *)
Theorem load_ends_ready_or_failed papaParse outcome st s :
  let '(st', s') := fetchAndParseCsv papaParse outcome st s in
  isLoadingCsv st' = false /\
  grows s s' /\
  ((csvError st' = None /\
    exists status csvText,
      outcome = Responded true status csvText /\
      is_blank csvText = false /\
      errors (papaParse csvText) = [] /\
      data (papaParse csvText) <> [] /\
      at_loc s' (allQuestions st')
      = Some (processedData (data (papaParse csvText))))
   \/ (exists msg, csvError st' = Some msg /\ msg <> EmptyString /\
                   at_loc s' (allQuestions st') = Some [])).
Proof.
  unfold fetchAndParseCsv.
  unfold mbind at 1. unfold M_bind at 1. unfold alloc at 1.
  set (s0 := {| arrays := arrays s ++ [[]]; draws := draws s |}).
  assert (G0 : grows s s0) by (by eexists).
  assert (Hfail : forall msg st0,
    let '(st', s') := load_failure msg st0 s0 in
    isLoadingCsv st' = false /\ grows s s' /\
    exists m, csvError st' = Some m /\ m <> EmptyString /\
              at_loc s' (allQuestions st') = Some []).
  { intros msg st0.
    unfold load_failure, alloc, mbind, M_bind, mret, M_ret, at_loc. simpl.
    split; [done|]. split.
    - exists [[]; []]. by rewrite <- app_assoc.
    - eexists. split; [done|]. split; [done|].
      by rewrite lookup_app_r, Nat.sub_diag by lia. }
  destruct outcome as [msg | ok status csvText].
  - specialize (Hfail msg (setAllQuestions (length (arrays s))
                 (setCsvError None (setIsLoadingCsv true st)))).
    destruct (load_failure _ _ s0) as [st' s'].
    destruct Hfail as (H1 & H2 & H3).
      split; [done|]. split; [done|]. by right.
  - destruct ok; cbn [negb].
    + destruct (String.eqb csvText EmptyString || is_blank csvText) eqn:Hb.
      * specialize (Hfail "CSV file is empty"
                      (setAllQuestions (length (arrays s))
                         (setCsvError None (setIsLoadingCsv true st)))).
        destruct (load_failure _ _ s0) as [st' s'].
        destruct Hfail as (H1 & H2 & H3).
      split; [done|]. split; [done|]. by right.
      * apply orb_false_iff in Hb as [_ Hb].
        match goal with |- context [complete ?r ?t ?u] =>
          pose proof (complete_outcome r t u) as H;
          assert (Hl : isLoadingCsv (fst (complete r t u)) = false);
          [|destruct (complete r t u) as [st' s'] eqn:E]
        end.
        { unfold complete. destruct (bool_decide _); [done|].
          destruct (data (papaParse csvText)); [done|].
          destruct (bool_decide _); done. }
        simpl in Hl. split; [done|].
        assert (Hempty : at_loc s0 (length (arrays s)) = Some []).
        { unfold at_loc. simpl.
          by rewrite lookup_app_r, Nat.sub_diag by lia. }
        destruct H as [H | [H | [H | H]]].
        -- destruct H as (Hc & _ & -> & Ha).
           split; [done|]. right. eexists. rewrite Ha. done.
        -- destruct H as (Hc & _ & _ & -> & Ha).
           split; [done|]. right. eexists. rewrite Ha. done.
        -- destruct H as (f & r & _ & _ & _ & Hc & -> & Ha).
           split; [done|]. right. eexists. rewrite Ha. done.
        -- destruct H as (f & r & He & Hd & _ & Hc & G & Ha).
           split; [by eapply grows_trans|]. left.
           split; [done|]. exists status, csvText.
           repeat split; try done. by rewrite Hd.
    + specialize (Hfail ("HTTP error! status: " +:+ to_string (VNum status)
                        +:+ " - Could not fetch CSV.")
                    (setAllQuestions (length (arrays s))
                       (setCsvError None (setIsLoadingCsv true st)))).
      destruct (load_failure _ _ s0) as [st' s'].
      destruct Hfail as (H1 & H2 & H3).
      split; [done|]. split; [done|]. by right.
Qed.
End Loading.

Section Rows.
Import Pyqs View Sample.

Lemma nullish_coalesce_defined v : nullish_coalesce v VNull <> VUndefined.
Proof. by destruct v. Qed.

(** Extra X5.  No field of a loaded question is undefined, and its year is
    null or a string.  The question comes from the row at some position
    [index], has id [index + 1], has the decimal text of the cell as year
    when the year cell is a number, and has the cell as stem when the stem
    cell is a string. *)
Theorem loaded_questions_have_no_undefined_field rows q :
  q ∈ processedData rows ->
  Forall (fun v => v <> VUndefined)
    [paper q; subject q; topic q; year q; passage q; question q;
     option_a q; option_b q; option_c q; option_d q; correct_option q;
     explanation q; image_url q] /\
  (year q = VNull \/ exists text, year q = VStr text) /\
  (exists index r, rows !! index = Some r /\
     id q = (Z.of_nat index + 1)%Z /\
     (forall n, r !! "year" = Some (VNum n) ->
                year q = VStr (to_string (VNum n))) /\
     (forall text, r !! "question" = Some (VStr text) ->
                   question q = VStr text)).
Proof.
  intros Hq. unfold processedData in Hq.
  apply elem_of_lookup_imap in Hq as (index & r & -> & Hr).
  split.
  { unfold processRow. simpl.
    repeat (constructor; [first [apply nullish_coalesce_defined
                                | by destruct (is_nullish _)]|]).
    constructor. }
  split.
  { unfold processRow. simpl. destruct (is_nullish _); eauto. }
  exists index, r. split; [done|]. split; [done|].
  split.
  - intros n Hn. unfold processRow, field. simpl. by rewrite Hn.
  - intros text Ht. unfold processRow, field. simpl. by rewrite Ht.
Qed.

Lemma loaded_questions_have_no_undefined_field_witness :
  exists q, q ∈ questions3 /\ year q = VStr "2019" /\
            question q = VStr "Who?" /\ topic q <> VUndefined.
Proof.
  exists (processRow 0 row1).
  assert (Hin : processRow 0 row1 ∈ processedData [row1; row2; row3])
    by apply list_elem_of_here.
  destruct (loaded_questions_have_no_undefined_field [row1; row2; row3]
              (processRow 0 row1) Hin) as (Hf & _ & _).
  split; [exact Hin|]. split; [reflexivity|]. split; [reflexivity|].
  apply Forall_cons in Hf as [_ Hf]. apply Forall_cons in Hf as [_ Hf].
  by apply Forall_cons in Hf as [Hf _].
Defined.
End Rows.

Section QuizRows.
Import View Sample Quiz.

Lemma or_null_normal cell :
  or_null cell = None \/ exists t, or_null cell = Some t /\ t <> EmptyString.
Proof.
  destruct (or_null cell) as [t|] eqn:E; [|by left].
  right. exists t. split; [done|]. by apply or_null_Some in E as [_ ?].
Qed.

Lemma quiz_columns_fields index (r : gmap string string) header proj :
  (header, proj) ∈ quiz_columns ->
  proj (Listed.mapRow index r)
  = or_null (replace_escaped_newlines <$> r !! header)
  /\ proj (Paged.mapRow index r) = or_null (r !! header).
Proof.
  intros Hcol. unfold quiz_columns in Hcol.
  repeat (apply elem_of_cons in Hcol as [Hcol|Hcol];
          [injection Hcol as -> ->; by split|]).
  by apply elem_of_nil in Hcol.
Qed.

(** Extra X22.  In both quiz revisions every field of an uploaded
    question that comes from a column is null or a non-empty string, never
    the empty string. *)
Theorem quiz_fields_are_null_or_nonempty rows q proj header :
  (q ∈ questions (Paged.handleFileUpload rows) \/
   q ∈ questions (Listed.handleFileUpload rows)) ->
  (header, proj) ∈ quiz_columns ->
  proj q = None \/ exists t, proj q = Some t /\ t <> EmptyString.
Proof.
  intros Hq Hcol.
  assert (Hrow : exists index r,
            q = Paged.mapRow index r \/ q = Listed.mapRow index r).
  { destruct Hq as [Hq|Hq]; simpl in Hq;
      apply elem_of_lookup_imap in Hq as (index & r & -> & _);
      exists index, r; auto. }
  destruct Hrow as (index & r & Hrow).
  destruct (quiz_columns_fields index r header proj Hcol) as [H1 H2].
  destruct Hrow as [-> | ->]; [rewrite H2 | rewrite H1]; apply or_null_normal.
Qed.

Lemma quiz_fields_are_null_or_nonempty_witness :
  let q := Paged.mapRow 0 quiz_row_no_key in
  correct_option q = None \/
  exists t, correct_option q = Some t /\ t <> EmptyString.
Proof.
  intros q.
  apply (quiz_fields_are_null_or_nonempty [quiz_row_no_key] q correct_option
           "Correct Answer").
  - left. apply list_elem_of_here.
  - unfold quiz_columns. do 7 apply list_elem_of_further.
    apply list_elem_of_here.
Defined.

(** Extra X23.  On a file none of whose cells contains a backslash-n
    sequence the two quiz revisions load the same state. *)
Theorem listed_upload_agrees_without_escapes (rows : list (gmap string string)) :
  (forall r header cell, r ∈ rows -> r !! header = Some cell ->
                         has_escaped_newline cell = false) ->
  Listed.handleFileUpload rows = Paged.handleFileUpload rows.
Proof.
  intros Hrows. unfold Listed.handleFileUpload, Paged.handleFileUpload.
  f_equal. apply imap_ext. intros index r Hr.
  assert (Hcell : forall header,
            Listed.unescaped (r !! header) = or_null (r !! header)).
  { intros header. unfold Listed.unescaped.
    destruct (r !! header) as [cell|] eqn:E; [|done]. simpl.
    rewrite replace_without_escape; [done|].
    apply (Hrows r header cell); [|done].
    apply list_elem_of_lookup. by exists index. }
  unfold Listed.mapRow, Paged.mapRow. by rewrite !Hcell.
Qed.

Lemma listed_upload_agrees_without_escapes_witness :
  Listed.handleFileUpload [quiz_row_keyed; quiz_row_no_key]
  = Paged.handleFileUpload [quiz_row_keyed; quiz_row_no_key].
Proof.
  apply listed_upload_agrees_without_escapes.
  intros r header cell Hr Hc.
  assert (Hall : forall r0, r0 ∈ [quiz_row_keyed; quiz_row_no_key] ->
            map_Forall (fun _ c => has_escaped_newline c = false) r0).
  { intros r0 Hr0.
    apply elem_of_cons in Hr0 as [->|Hr0];
      [|apply elem_of_cons in Hr0 as [->|Hr0];
        [|by apply elem_of_nil in Hr0]];
      apply (bool_decide_unpack _); by vm_compute. }
  exact (Hall r Hr header cell Hc).
Defined.
End QuizRows.

(** ** The quiz pages *)

Section QuizScore.
Import View Sample Quiz Events.

Lemma counted_length answers qs : forall index,
  (length (counted answers index qs) <= length qs)%nat.
Proof.
  induction qs as [|q qs IH]; intros index; simpl; [lia|].
  specialize (IH (S index)).
  destruct (counts_as_correct q (answers !! index)); simpl; lia.
Qed.

(** Extra X24.  The score computed by [handleSubmit] lies between 0 and
    the number of questions; submitting marks the quiz submitted, keeps the
    questions, and submitting again changes nothing. *)
Theorem quiz_score_is_bounded quizState :
  (0 <= score (handleSubmit quizState)
   <= Z.of_nat (length (questions quizState)))%Z /\
  submitted (handleSubmit quizState) = true /\
  questions (handleSubmit quizState) = questions quizState /\
  handleSubmit (handleSubmit quizState) = handleSubmit quizState.
Proof.
  split.
  - simpl. rewrite score_loop_counted.
    pose proof (counted_length (selectedAnswers quizState)
                  (questions quizState) 0). lia.
  - done.
Qed.

Lemma letters_are_upper_case o :
  o ∈ ["A"; "B"; "C"; "D"] -> toUpperCase o = o.
Proof.
  intros H. repeat (apply elem_of_cons in H as [->|H]; [done|]).
  by apply elem_of_nil in H.
Qed.

(** Extra X26.  For a position whose stored answer is one of the letters
    A to D, [handleSubmit] counts the position exactly when the results
    view marks that letter as the correct option; and the results view
    marks at most one option of a question. *)
Theorem answered_position_scores_as_marked quizState i q o o' :
  questions quizState !! i = Some q ->
  selectedAnswers quizState !! i = Some o ->
  o ∈ ["A"; "B"; "C"; "D"] ->
  (i ∈ counted (selectedAnswers quizState) 0 (questions quizState) <->
   isCorrect q o = true)
  /\ (isCorrect q o = true -> isCorrect q o' = true -> o' = o).
Proof.
  intros Hq Ha Ho. split.
  - rewrite elem_of_counted, Nat.sub_0_r. unfold counts_as_correct, isCorrect.
    split.
    + intros (q' & Hq' & _ & Hc). simplify_eq. rewrite Ha in Hc.
      apply bool_decide_eq_true in Hc. apply bool_decide_eq_true.
      rewrite Hc. simpl. by rewrite letters_are_upper_case.
    + intros Hc. exists q. split; [done|]. split; [lia|].
      rewrite Ha. apply bool_decide_eq_true in Hc. apply bool_decide_eq_true.
      rewrite Hc. simpl. by rewrite letters_are_upper_case.
  - unfold isCorrect. rewrite !bool_decide_eq_true. congruence.
Qed.

Lemma answered_position_scores_as_marked_witness :
  let quizState :=
    Paged.handleAnswerSelect "B"
      (Paged.handleFileUpload [quiz_row_keyed; quiz_row_no_key]) in
  0%nat ∈ counted (selectedAnswers quizState) 0 (questions quizState) <->
  isCorrect (Paged.mapRow 0 quiz_row_keyed) "B" = true.
Proof.
  intros quizState.
  apply (answered_position_scores_as_marked quizState 0%nat
           (Paged.mapRow 0 quiz_row_keyed) "B" "B").
  - reflexivity.
  - reflexivity.
  - apply list_elem_of_further, list_elem_of_here.
Defined.

Lemma handleQuiz_paged quizState e :
  currentIndex quizState = 0%nat ->
  (forall p, p <> 0%nat -> selectedAnswers quizState !! p = None) ->
  currentIndex (handleQuiz quizState e) = 0%nat /\
  questions (handleQuiz quizState e) = questions quizState /\
  (forall p, p <> 0%nat -> selectedAnswers (handleQuiz quizState e) !! p = None).
Proof.
  intros Hc Hs. destruct e as [o|]; simpl; [|done].
  unfold Paged.handleAnswerSelect. destruct (submitted quizState); [done|].
  simpl. split; [done|]. split; [done|].
  intros p Hp. rewrite Hc, lookup_insert_ne by done. by apply Hs.
Qed.

(** Extra X27.  In the quiz revision that shows one question at a time,
    after an upload and any sequence of answer selections and submissions
    the current index is 0, the questions are those uploaded, and no
    position other than 0 holds an answer: at most one answer is ever
    stored. *)
Theorem paged_quiz_answers_first_question_only rows evs :
  let quizState := runQuiz evs (Paged.handleFileUpload rows) in
  currentIndex quizState = 0%nat /\
  questions quizState = questions (Paged.handleFileUpload rows) /\
  (forall p, p <> 0%nat -> selectedAnswers quizState !! p = None) /\
  (size (selectedAnswers quizState) <= 1)%nat.
Proof.
  simpl.
  assert (H : forall quizState,
    currentIndex quizState = 0%nat ->
    (forall p, p <> 0%nat -> selectedAnswers quizState !! p = None) ->
    currentIndex (runQuiz evs quizState) = 0%nat /\
    questions (runQuiz evs quizState) = questions quizState /\
    (forall p, p <> 0%nat ->
               selectedAnswers (runQuiz evs quizState) !! p = None)).
  { unfold runQuiz. induction evs as [|e evs IH]; intros qz Hc Hs; simpl.
    - done.
    - destruct (handleQuiz_paged qz e Hc Hs) as (H1 & H2 & H3).
      destruct (IH _ H1 H3) as (H4 & H5 & H6).
      split; [done|]. split; [congruence|done]. }
  destruct (H (Paged.handleFileUpload rows)) as (H1 & H2 & H3); [done|done|].
  split; [done|]. split; [done|]. split; [done|].
  set (m := selectedAnswers (runQuiz evs (Paged.handleFileUpload rows))) in *.
  assert (Hsub : dom m ⊆ ({[ 0%nat ]} : gset nat)).
  { intros p Hp. apply elem_of_dom in Hp as [a Ha].
    destruct (decide (p = 0%nat)) as [->|Hne].
    - by apply elem_of_singleton.
    - rewrite H3 in Ha by done. done. }
  rewrite <- size_dom. apply subseteq_size in Hsub.
  by rewrite size_singleton in Hsub.
Qed.
End QuizScore.

(** ** Rendering *)

Section RenderingFacts.
Import Pyqs View Sample Rendering.

(** Extra X19.  The stem of the later revision renders as the empty text
    when the field is falsy, as the unescaped text when it is a non-empty
    string, and throws a TypeError exactly when it is a non-zero number or
    true.  For a null stem the later revision never shows the placeholder,
    which the earlier revision does show. *)
Theorem stem_renders_or_throws q :
  (truthy (question q) = false -> stemText q = Returned EmptyString)
  /\ (forall t, question q = VStr t -> t <> EmptyString ->
                stemText q = Returned (replace_escaped_newlines t))
  /\ (stemText q = TypeError <->
      (exists n, question q = VNum n /\ n <> 0%Z) \/ question q = VBool true)
  /\ (question q = VNull ->
      stemText q <> Returned stem_placeholder /\
      stemText_earlier q = stem_placeholder).
Proof.
  unfold stemText, stemText_earlier, formatText_value.
  split; [intros ->; done|]. split.
  { intros t -> Ht. simpl.
    by destruct (String.eqb_spec t EmptyString). }
  split.
  { destruct (question q) as [| |[]|n|t]; simpl; try (split; [done|]).
    - intros [(n & ? & _)|?]; done.
    - intros [(n & ? & _)|?]; done.
    - split; [by right | done].
    - intros [(n & ? & _)|?]; done.
    - destruct (Z.eqb_spec n 0) as [->|Hn]; simpl.
      + split; [done|]. intros [(n & [= <-] & Hn)|?]; done.
      + split; [|done]. intros _. left. by exists n.
    - destruct (String.eqb t EmptyString); simpl;
        (split; [done|]); intros [(n & ? & _)|?]; done. }
  intros ->. simpl. split; done.
Qed.

Lemma stem_renders_or_throws_witness :
  stemText (processRow 0 row_no_stem) = Returned EmptyString.
Proof.
  apply (stem_renders_or_throws (processRow 0 row_no_stem)). reflexivity.
Defined.

(** Extra X20.  Marking an option as correct throws a TypeError exactly
    when the answer key is a number or a boolean; for a string key the
    option is marked when the key upper-cased is its letter, and for a null
    or undefined key no option is marked. *)
Theorem marking_throws_on_typed_answer_key q optLetter :
  (isCorrect q optLetter = TypeError <->
   exists v, correct_option q = v /\
             ((exists n, v = VNum n) \/ (exists b, v = VBool b)))
  /\ (forall t, correct_option q = VStr t ->
        isCorrect q optLetter
        = Returned (bool_decide (toUpperCase t = optLetter)))
  /\ (is_nullish (correct_option q) = true ->
      isCorrect q optLetter = Returned false).
Proof.
  unfold isCorrect, toUpperCase_optional.
  destruct (correct_option q) as [| |b|n|t]; simpl.
  - split; [|done]. split; [done|]. intros (v & <- & [[n ?]|[b ?]]); done.
  - split; [|done]. split; [done|]. intros (v & <- & [[n ?]|[b ?]]); done.
  - split; [|done]. split; [|done]. intros _. eexists. split; [done|].
    right. by exists b.
  - split; [|done]. split; [|done]. intros _. eexists. split; [done|].
    left. by exists n.
  - split; [|split; [|done]].
    + split; [done|]. intros (v & <- & [[n ?]|[b ?]]); done.
    + intros t' [= <-]. f_equal. apply bool_decide_ext.
      split; [by intros [= ?] | by intros ->].
Qed.

(** Extra X21.  [formatText] is idempotent, its result contains no
    backslash-n sequence, and it returns a text without such a sequence
    unchanged. *)
Theorem formatText_is_idempotent text :
  formatText (Some (formatText text)) = formatText text /\
  has_escaped_newline (formatText text) = false /\
  (forall t, text = Some t -> has_escaped_newline t = false ->
             formatText text = t).
Proof.
  assert (Hfix : forall u, has_escaped_newline u = false ->
                           formatText (Some u) = u).
  { intros u Hu. unfold formatText. simpl.
    destruct (String.eqb_spec u EmptyString) as [->|_]; simpl; [done|].
    by apply replace_without_escape. }
  assert (Hfree : has_escaped_newline (formatText text) = false).
  { unfold formatText. destruct text as [t|]; [|done].
    destruct (truthy (VStr t)); [apply replace_leaves_no_escape | done]. }
  split; [by apply Hfix|]. split; [done|].
  intros t -> Ht. by apply Hfix.
Qed.

(** Extra X14.  A change of a filter control leaves the paper, year and
    id fields other than the named one unchanged, leaves subject unchanged
    unless the control is paper or subject, and leaves topic unchanged
    unless the control is paper, subject or topic; applying the same change
    twice is applying it once. *)
Theorem filter_change_leaves_other_fields name value f :
  (name <> "paper" ->
   Filters.paper (handleFilterChange name value f) = Filters.paper f)
  /\ (name <> "year" ->
      Filters.year (handleFilterChange name value f) = Filters.year f)
  /\ (name <> "id" ->
      Filters.id (handleFilterChange name value f) = Filters.id f)
  /\ (name <> "paper" -> name <> "subject" ->
      Filters.subject (handleFilterChange name value f) = Filters.subject f)
  /\ (name <> "paper" -> name <> "subject" -> name <> "topic" ->
      Filters.topic (handleFilterChange name value f) = Filters.topic f)
  /\ handleFilterChange name value (handleFilterChange name value f)
     = handleFilterChange name value f.
Proof.
  unfold handleFilterChange.
  destruct (String.eqb_spec name "paper") as [->|Hp]; simpl.
  { repeat split; done. }
  destruct (String.eqb_spec name "subject") as [->|Hs]; simpl.
  { repeat split; done. }
  destruct (String.eqb_spec name "topic") as [->|Ht]; simpl.
  { repeat split; done. }
  destruct (String.eqb_spec name "year") as [->|Hy]; simpl.
  { repeat split; done. }
  destruct (String.eqb_spec name "id") as [->|Hi]; simpl.
  { repeat split; done. }
  repeat split; done.
Qed.

Lemma filter_change_leaves_other_fields_witness :
  Filters.paper (handleFilterChange "year" "2020" initialFilters)
  = Filters.paper initialFilters.
Proof.
  destruct (filter_change_leaves_other_fields "year" "2020" initialFilters)
    as (H & _).
  apply H. discriminate.
Defined.
End RenderingFacts.

Section MoreInstances.
Import Pyqs View Sample Rendering Events.

Lemma marking_throws_on_typed_answer_key_witness :
  Rendering.isCorrect (processRow 0 row1) "B" = Returned true.
Proof.
  destruct (marking_throws_on_typed_answer_key (processRow 0 row1) "B")
    as (_ & H & _).
  exact (H "B" eq_refl).
Defined.

Lemma formatText_is_idempotent_witness :
  formatText (Some "plain text") = "plain text".
Proof.
  destruct (formatText_is_idempotent (Some "plain text")) as (_ & _ & H).
  exact (H "plain text" eq_refl eq_refl).
Defined.

Lemma paged_quiz_answers_first_question_only_witness :
  Quiz.selectedAnswers
    (runQuiz [Answer "A"; Answer "C"; SubmitQuiz; Answer "D"]
       (Quiz.Paged.handleFileUpload [quiz_row_keyed; quiz_row_no_key]))
  !! 1%nat = None.
Proof.
  destruct (paged_quiz_answers_first_question_only
              [quiz_row_keyed; quiz_row_no_key]
              [Answer "A"; Answer "C"; SubmitQuiz; Answer "D"])
    as (_ & _ & H & _).
  apply H. discriminate.
Defined.

End MoreInstances.
